(** * lineChart.tsx: the metric normalizer and the chart-option builder

    A shallow embedding of the [LineChart] component of [src/lineChart.tsx]:
    the [chartData] memo (normalizer), the option object built in the effect
    (unified timeline, aligned series data, per-point colour callback,
    tooltip formatter) and the component's choice between the chart
    container and the "No data available" placeholder.

    Conventions.
    - Timestamps are epoch milliseconds and are modelled as [Z].
    - A JavaScript number that is only carried around (a parsed metric
      value) is an IEEE 754 datum, [spec_float]; [S754_nan] is NaN.
    - An ordered [Map] is an association list in insertion order, a [Set]
      a duplicate-free list in insertion order.
    - A statement that can raise a [TypeError] (member access on
      [undefined]) is modelled in the [outcome] monad.
    - Language and platform builtins whose results are only passed through
      ([parseFloat], number-to-string conversion, [Date.toLocaleString]) are
      the fields of the [Platform] class. *)

From Stdlib Require Import ZArith Floats.SpecFloat.
From stdpp Require Import base decidable option list strings sorting pretty.

(** ** Completions: a value, or a thrown exception *)

Inductive outcome (A : Type) : Type :=
| Returns (a : A)
| Throws (e : string).
Arguments Returns {A} a.
Arguments Throws {A} e.

#[global] Instance outcome_ret : MRet outcome := λ A a, Returns a.
#[global] Instance outcome_bind : MBind outcome := λ A B f m,
  match m with
  | Returns a => f a
  | Throws e => Throws e
  end.

(** [forEach] with a callback that updates an accumulator and may throw. *)
Fixpoint forEachM {A S : Type} (f : S → A → outcome S) (l : list A) (s : S)
  : outcome S :=
  match l with
  | [] => Returns s
  | x :: l' => s' ← f s x; forEachM f l' s'
  end.

(** ** The builtins of the language that the component calls *)

Module JsMap.
Section ordered.
Context {K V : Type} `{EqDecision K}.

(** [Map.prototype.get]: [None] is [undefined]. *)
Fixpoint get (k : K) (m : list (K * V)) : option V :=
  match m with
  | [] => None
  | (k', v) :: m' => if decide (k' = k) then Some v else get k m'
  end.

(** [Map.prototype.has]. *)
Definition has (k : K) (m : list (K * V)) : bool :=
  match get k m with Some _ => true | None => false end.

(** [Map.prototype.set]: an existing key keeps its place and takes the new
    value; a new key goes last. *)
Fixpoint set (k : K) (v : V) (m : list (K * V)) : list (K * V) :=
  match m with
  | [] => [(k, v)]
  | (k', v') :: m' =>
      if decide (k' = k) then (k, v) :: m' else (k', v') :: set k v m'
  end.

(** [Map.prototype.keys], in insertion order. *)
Definition keys (m : list (K * V)) : list K := m.*1.

(** [new Map(entries)]. *)
Definition of_entries (es : list (K * V)) : list (K * V) :=
  foldl (λ m e, set e.1 e.2 m) [] es.
End ordered.
End JsMap.

Module JsSet.
(** [Set.prototype.add] on a set kept in insertion order. *)
Definition add (x : Z) (s : list Z) : list Z :=
  if decide (x ∈ s) then s else s ++ [x].
End JsSet.

Module JsArray.
Section sort.
Context {A : Type} (cmp : A → A → Z).

(** [Array.prototype.sort(cmp)] is stable: of two elements that compare
    equal, the one that came first stays first.  The engine is free in how
    it sorts, but for a comparator that orders by a numeric key stability
    fixes the result.  The model inserts each element, from the last to the
    first, in front of the first element it does not compare greater
    than. *)
Fixpoint insert (x : A) (l : list A) : list A :=
  match l with
  | [] => [x]
  | y :: l' => if decide (cmp x y ≤ 0)%Z then x :: l else y :: insert x l'
  end.

Definition sort (l : list A) : list A := foldr insert [] l.
End sort.
End JsArray.

(** ** Data model *)

(** The object under a metric key: [{ value, timestamp, status }]. *)
Record MetricReading : Type := mkReading {
  reading_value : string;
  reading_timestamp : Z;
  reading_status : string
}.

(** What a property of a [DataPoint] can hold.  The declared type is a
    reading or a number; [PNull] is there because the guard of the
    normalizer rules it out by hand. *)
Inductive PropertyValue : Type :=
| PNumber (n : Z)
| PNull
| PReading (r : MetricReading).

Definition typeof (v : PropertyValue) : string :=
  match v with
  | PNumber _ => "number"
  | PNull => "object"
  | PReading _ => "object"
  end.

(** A [DataPoint] is its own enumerable properties, in the order of
    [Object.entries]. *)
Abbreviation DataPoint := (list (string * PropertyValue)) (only parsing).

(** The element type of the arrays in [metricsMap]. *)
Record Sample : Type := mkSample {
  timestamp : Z;
  value : spec_float;
  status : string
}.

Abbreviation MetricsMap := (list (string * list Sample)) (only parsing).

Inductive DateFields : Type :=
| FullDateTime   (* year, month, day, hour, minute, second *)
| ShortDateTime. (* month, day, hour, minute *)

Class Platform : Type := {
  (** [parseFloat] *)
  parseFloat : string → spec_float;
  (** the conversion of a number inside a template literal *)
  numberToString : spec_float → string;
  (** [new Date(t).toLocaleString("zh-CN", fields)]; [None] is
      [new Date(undefined)] *)
  toLocaleString : option Z → DateFields → string
}.

(** What [statusColors[s] || "#1890ff"] can evaluate to: one of the colour
    strings, or a member that the object literal inherits from
    [Object.prototype]. *)
Inductive ColorValue : Type :=
| Color (css : string)
| Inherited (member : string).

Record Series : Type := mkSeries {
  series_name : string;
  series_type : string;
  series_smooth : bool;
  series_symbol : string;
  series_symbolSize : Z;
  series_data : list (option spec_float);
  itemStyle_color : nat → ColorValue;
  lineStyle_width : Z
}.

(** One element of the array that the chart hands to the tooltip formatter. *)
Record Param : Type := mkParam {
  seriesName : string;
  marker : string;
  dataIndex : nat
}.

Inductive FormatterParams : Type :=
| SingleParam (p : Param)
| ParamArray (ps : list Param).

Record ChartOption : Type := mkOption {
  tooltip_trigger : string;
  tooltip_formatter : FormatterParams → outcome string;
  legend_data : list string;
  xAxis_type : string;
  xAxis_data : list string;
  yAxis_type : string;
  option_series : list Series
}.

(** The chart instance, as far as the component sees it: the option it was
    last given. *)
Record ECharts : Type := mkECharts { current_option : option ChartOption }.

Inductive View : Type :=
| NoDataPlaceholder (height : Z)
| ChartContainer (height : Z).

(** ** The normalizer: the [chartData] memo (lines 25-60) *)

(** [const { category, ...metrics } = item; Object.entries(metrics)] *)
Definition metrics_entries (item : DataPoint) : list (string * PropertyValue) :=
  filter (λ e, e.1 ≠ "category") item.

Definition is_null (v : PropertyValue) : bool :=
  match v with PNull => true | _ => false end.

(** The guard [typeof metricData === "object" && metricData !== null]. *)
Definition is_reading_object (v : PropertyValue) : bool :=
  bool_decide (typeof v = "object") && negb (is_null v).

Section Normalizer.
Context `{Platform}.

Definition sample_of (r : MetricReading) : Sample :=
  {| timestamp := reading_timestamp r;
     value := parseFloat (reading_value r);
     status := reading_status r |}.

(** The body of the inner [forEach] (lines 40-51). *)
Definition observe (metricsMap : MetricsMap) (entry : string * PropertyValue)
  : outcome MetricsMap :=
  let '(metricName, metricData) := entry in
  if is_reading_object metricData then
    match metricData with
    | PReading r =>
        let metricsMap :=
          if JsMap.has metricName metricsMap then metricsMap
          else JsMap.set metricName [] metricsMap in
        match JsMap.get metricName metricsMap with
        | Some values =>
            Returns (JsMap.set metricName (values ++ [sample_of r]) metricsMap)
        | None => Throws "TypeError"
        end
    | _ => Returns metricsMap
    end
  else Returns metricsMap.

(** The outer [forEach] (lines 37-52), from an empty map. *)
Definition collect (data : list DataPoint) : outcome MetricsMap :=
  forEachM (λ metricsMap item, forEachM observe (metrics_entries item) metricsMap)
           data [].

Definition by_timestamp (a b : Sample) : Z := (timestamp a - timestamp b)%Z.

(** Lines 55-57: every array of the map is sorted in place. *)
Definition sort_each (metricsMap : MetricsMap) : MetricsMap :=
  (λ e, (e.1, JsArray.sort by_timestamp e.2)) <$> metricsMap.

(** [None] as input is an absent [data]; [None] as result is [null]. *)
Definition chartData (data : option (list DataPoint))
  : outcome (option MetricsMap) :=
  match data with
  | None => Returns None
  | Some [] => Returns None
  | Some items => metricsMap ← collect items; Returns (Some (sort_each metricsMap))
  end.
End Normalizer.

(** ** The builder: the option object of the effect (lines 72-182) *)

(** Lines 73-76. *)
Definition allTimestamps (chartData : MetricsMap) : list Z :=
  foldl (λ s e, foldl (λ s item, JsSet.add (timestamp item) s) s e.2) [] chartData.

(** Line 77. *)
Definition sortedTimestamps (chartData : MetricsMap) : list Z :=
  JsArray.sort Z.sub (allTimestamps chartData).

(** Line 85. *)
Definition dataMap (metricData : list Sample) : list (Z * Sample) :=
  JsMap.of_entries ((λ item, (timestamp item, item)) <$> metricData).

(** Lines 93-96: the [data] array of one series. *)
Definition aligned_data (sortedTimestamps : list Z) (metricData : list Sample)
  : list (option spec_float) :=
  (λ timestamp,
     match JsMap.get timestamp (dataMap metricData) with
     | Some dataPoint => Some (value dataPoint)
     | None => None
     end) <$> sortedTimestamps.

(** The names an object literal inherits from [Object.prototype]; each of
    them holds a function or an object, so each is truthy. *)
Definition object_prototype_members : list string :=
  [ "constructor"; "hasOwnProperty"; "isPrototypeOf"; "propertyIsEnumerable";
    "toLocaleString"; "toString"; "valueOf"; "__proto__";
    "__defineGetter__"; "__defineSetter__"; "__lookupGetter__";
    "__lookupSetter__" ].

(** Lines 102-106, read with a computed key. *)
Definition statusColors (key : string) : option ColorValue :=
  if decide (key = "GOOD") then Some (Color "#52c41a")
  else if decide (key = "WARNING") then Some (Color "#faad14")
  else if decide (key = "ERROR") then Some (Color "#f5222d")
  else if decide (key ∈ object_prototype_members) then Some (Inherited key)
  else None.

(** Lines 98-108: the colour callback of one series. *)
Definition color (metricData : list Sample) (params_dataIndex : nat) : ColorValue :=
  match metricData !! params_dataIndex with
  | None => Color "#1890ff"
  | Some dataPoint =>
      match statusColors (status dataPoint) with
      | Some c => c
      | None => Color "#1890ff"
      end
  end.

(** Lines 87-113. *)
Definition make_series (sortedTimestamps : list Z) (metricName : string)
    (metricData : list Sample) : Series :=
  {| series_name := metricName;
     series_type := "line";
     series_smooth := true;
     series_symbol := "circle";
     series_symbolSize := 6;
     series_data := aligned_data sortedTimestamps metricData;
     itemStyle_color := color metricData;
     lineStyle_width := 2 |}.

(** Lines 83-114: [chartData.get(metricName)!] throws when it is
    [undefined] and a member of it is read. *)
Definition build_series (chartData : MetricsMap) (sortedTimestamps : list Z)
  : outcome (list Series) :=
  forEachM (λ series metricName,
              match JsMap.get metricName chartData with
              | Some metricData =>
                  Returns (series ++ [make_series sortedTimestamps metricName metricData])
              | None => Throws "TypeError"
              end)
           (JsMap.keys chartData) [].

Section Builder.
Context `{Platform}.

(** The template literal of line 140. *)
Definition tooltip_line (param : Param) (dataPoint : Sample) : string :=
  marker param +:+ " " +:+ seriesName param +:+ ": "
    +:+ numberToString (value dataPoint) +:+ " (" +:+ status dataPoint +:+ ")<br/>".

(** Lines 135-142: the body of [params.forEach]. *)
Definition tooltip_step (chartData : MetricsMap) (timestamp_ : option Z)
    (result : string) (param : Param) : outcome string :=
  match JsMap.get (seriesName param) chartData with
  | None => Throws "TypeError"
  | Some metricData =>
      match find (λ item, bool_decide (Some (timestamp item) = timestamp_)) metricData with
      | Some dataPoint => Returns (result +:+ tooltip_line param dataPoint)
      | None => Returns result
      end
  end.

(** Lines 119-145. *)
Definition formatter (chartData : MetricsMap) (sortedTimestamps : list Z)
    (params : FormatterParams) : outcome string :=
  match params with
  | SingleParam _ => Returns ""
  | ParamArray [] => Returns ""
  | ParamArray ((p0 :: _) as ps) =>
      let timestamp_ := sortedTimestamps !! dataIndex p0 in
      let dateStr := toLocaleString timestamp_ FullDateTime in
      forEachM (tooltip_step chartData timestamp_) ps (dateStr +:+ "<br/>")
  end.

(** Lines 72-182: everything the effect computes before [chart.setOption]. *)
Definition build_option (chartData : MetricsMap) : outcome ChartOption :=
  let sortedTimestamps := sortedTimestamps chartData in
  series ← build_series chartData sortedTimestamps;
  Returns
    {| tooltip_trigger := "axis";
       tooltip_formatter := formatter chartData sortedTimestamps;
       legend_data := JsMap.keys chartData;
       xAxis_type := "category";
       xAxis_data := (λ t, toLocaleString (Some t) ShortDateTime) <$> sortedTimestamps;
       yAxis_type := "value";
       option_series := series |}.

(** ** The component *)

(** Lines 207-224: what the component returns. *)
Definition view (chartData : option MetricsMap) (height : Z) : View :=
  match chartData with
  | None => NoDataPlaceholder height
  | Some m => if decide (length m = 0) then NoDataPlaceholder height
              else ChartContainer height
  end.

(** [chartRef.current] when the effect runs: the container is mounted
    exactly when the component returned it. *)
Definition chartRef_current (v : View) : bool :=
  match v with
  | ChartContainer _ => true
  | NoDataPlaceholder _ => false
  end.

(** Lines 62-184.  The result is the new [chartInstanceRef.current] and the
    option object handed to [setOption], if one was built. *)
Definition effect (chartRef_current : bool) (chartInstanceRef : option ECharts)
    (chartData : option MetricsMap)
  : outcome (option ECharts * option ChartOption) :=
  match chartRef_current, chartData with
  | true, Some m =>
      opt ← build_option m;
      Returns (Some {| current_option := Some opt |}, Some opt)
  | _, _ => Returns (chartInstanceRef, None)
  end.

(** One render of [LineChart] followed by its effect. *)
Definition LineChart (chartInstanceRef : option ECharts)
    (data : option (list DataPoint)) (height : option Z)
  : outcome (option ECharts * View * option ChartOption) :=
  let height := default 400%Z height in
  cd ← chartData data;
  let v := view cd height in
  r ← effect (chartRef_current v) chartInstanceRef cd;
  Returns (r.1, v, r.2).
End Builder.

(** ** A reference platform, to run the definitions *)

Module Reference.
Definition digit_of (c : Ascii.ascii) : option N :=
  let n := Ascii.N_of_ascii c in
  if decide (48 ≤ n ≤ 57)%N then Some (n - 48)%N else None.

(** The value of the longest prefix of decimal digits, if there is one. *)
Fixpoint digits_prefix (s : string) (acc : option N) : option N :=
  match s with
  | String c s' =>
      match digit_of c with
      | Some d => digits_prefix s' (Some (10 * default 0%N acc + d)%N)
      | None => acc
      end
  | EmptyString => acc
  end.

(** Agrees with [parseFloat] on the strings that start with a digit or with
    a letter other than the [I] of [Infinity], and in which the leading
    digits, if any, are not followed by a dot or an exponent: the binary64
    number nearest to the leading digits, NaN when there are none. *)
Definition parseFloat_digits (s : string) : spec_float :=
  match digits_prefix s None with
  | Some n => binary_normalize 53 1024 (Z.of_N n) 0 false
  | None => S754_nan
  end.

(** Agrees with the number-to-string conversion on NaN, the infinities and
    the integers of magnitude up to [2^53]; above, it prints every digit of
    an integer where the builtin rounds to the shortest digits that read
    back the same number, and it prints a question mark for what is not an
    integer. *)
Definition numberToString_integers (x : spec_float) : string :=
  match x with
  | S754_nan => "NaN"
  | S754_zero _ => "0"
  | S754_infinity s => if s then "-Infinity" else "Infinity"
  | S754_finite s m e =>
      let sign := if s then "-" else "" in
      if decide (0 ≤ e)%Z then
        let n := (Z.pos m * 2 ^ e)%Z in
        if decide (n < 10 ^ 21)%Z then sign +:+ pretty n else "?"
      else if decide (Z.pos m `mod` 2 ^ (- e) = 0)%Z
           then sign +:+ pretty (Z.pos m `div` 2 ^ (- e))%Z
           else "?"
  end.

(** A stand-in for the host's date formatting, which depends on its time
    zone: the epoch milliseconds, tagged with the fields asked for. *)
Definition toLocaleString_epoch (t : option Z) (fields : DateFields) : string :=
  match t with
  | None => "Invalid Date"
  | Some t =>
      match fields with
      | FullDateTime => "full:" +:+ pretty t
      | ShortDateTime => "short:" +:+ pretty t
      end
  end.

Definition platform : Platform :=
  {| parseFloat := parseFloat_digits;
     numberToString := numberToString_integers;
     toLocaleString := toLocaleString_epoch |}.

Definition reading (v : string) (t : Z) (s : string) : PropertyValue :=
  PReading {| reading_value := v; reading_timestamp := t; reading_status := s |}.

(** Scenario 1 of the specification. *)
Definition scenario1 : list DataPoint :=
  [ [("category", PNumber 1); ("cpu", reading "10" 1000 "GOOD")] ].

(** Scenario 2: [cpu] at 1000 and 2000, [mem] at 1000 only. *)
Definition scenario2 : list DataPoint :=
  [ [("category", PNumber 1); ("cpu", reading "10" 1000 "GOOD");
     ("mem", reading "7" 1000 "WARNING")];
    [("category", PNumber 1); ("cpu", reading "20" 2000 "ERROR")] ].

(** [mem] at 1000 and 2000, [cpu] at 2000 only. *)
Definition late_metric : list DataPoint :=
  [ [("category", PNumber 1); ("mem", reading "1" 1000 "GOOD")];
    [("category", PNumber 1); ("cpu", reading "2" 2000 "ERROR");
     ("mem", reading "3" 2000 "GOOD")] ].

(** Two [cpu] readings with one timestamp, and an unparseable [mem]. *)
Definition repeated : list DataPoint :=
  [ [("category", PNumber 1); ("cpu", reading "5" 1000 "GOOD");
     ("mem", reading "abc" 1000 "GOOD")];
    [("category", PNumber 2); ("cpu", reading "6" 1000 "ERROR");
     ("load", PNumber 3)];
    [("category", PNumber 3); ("cpu", reading "4" 500 "WARNING")] ].

(** The readings of [repeated] among other categories and properties. *)
Definition repeated_noise : list DataPoint :=
  [ [("cpu", reading "5" 1000 "GOOD"); ("category", PNumber 7);
     ("mem", reading "abc" 1000 "GOOD"); ("temp", PNumber 9)];
    [("cpu", reading "6" 1000 "ERROR"); ("note", PNull)];
    [("category", reading "0" 0 "GOOD"); ("cpu", reading "4" 500 "WARNING")] ].

(** Records without any reading. *)
Definition numbers_only : list DataPoint :=
  [ [("category", PNumber 1); ("load", PNumber 3)]; [("category", PNumber 2)] ].

Definition num (n : Z) : spec_float := binary_normalize 53 1024 n 0 false.

(** The mapping the normalizer returns on [data], empty when it returns
    [null]. *)
Definition normalized (data : list DataPoint) : list (string * list Sample) :=
  match chartData (H:=platform) (Some data) with
  | Returns (Some metricsMap) => metricsMap
  | _ => []
  end.
End Reference.


(** ** Vocabulary of the statements *)

Section Vocabulary.
Context `{Platform}.

(** The sample an entry contributes to the series of [name]: none or one. *)
Definition reading_for (name : string) (entry : string * PropertyValue)
  : list Sample :=
  match entry.2 with
  | PReading r => if decide (entry.1 = name) then [sample_of r] else []
  | _ => []
  end.

(** The readings of the metric [name], record after record. *)
Definition readings_of (name : string) (data : list DataPoint) : list Sample :=
  item ← data; entry ← metrics_entries item; reading_for name entry.
End Vocabulary.

(** A series after some more samples were pushed; no series is created
    when there is nothing to push. *)
Definition pushed (o : option (list Sample)) (l : list Sample)
  : option (list Sample) :=
  match o, l with
  | None, [] => None
  | _, _ => Some (default [] o ++ l)
  end.

(** A record contributes a reading for [name] when it holds a reading object
    under the key [name], which is not [category]. *)
Definition contributes (name : string) (item : DataPoint) : bool :=
  bool_decide (name ≠ "category")
  && existsb (λ e, bool_decide (e.1 = name) && is_reading_object e.2) item.

(** The property names of an object are pairwise distinct. *)
Definition well_formed (item : DataPoint) : Prop := NoDup item.*1.

#[global] Instance well_formed_dec (item : DataPoint) : Decision (well_formed item).
Proof. unfold well_formed. apply _. Defined.

(** Every timestamp of every series, with repetitions. *)
Definition every_timestamp (chartData : MetricsMap) : list Z :=
  e ← chartData; timestamp <$> e.2.

(** The samples of a series that carry the timestamp [t], in series order. *)
Definition samples_at (t : Z) (metricData : list Sample) : list Sample :=
  filter (λ s, timestamp s = t) metricData.

(** The colour that the table of the component gives to a status. *)
Definition status_color (s : string) : ColorValue :=
  default (Color "#1890ff") (statusColors s).

(** The parameters of an axis tooltip at position [i]: one per series, in
    series order; [mark] gives each series its marker. *)
Definition axis_params (mark : string → string) (i : nat) (names : list string)
  : list Param :=
  (λ n, {| seriesName := n; marker := mark n; dataIndex := i |}) <$> names.

(** The metrics that have a sample at exactly [t], in series order, each
    with the first of its samples there. *)
Definition metrics_at (chartData : MetricsMap) (t : Z) : list (string * Sample) :=
  omap (λ name, metricData ← JsMap.get name chartData;
                dataPoint ← head (samples_at t metricData);
                Some (name, dataPoint))
       (JsMap.keys chartData).

(** The array inside the formatter's argument, if it is one. *)
Definition params_of (params : FormatterParams) : list Param :=
  match params with
  | SingleParam _ => []
  | ParamArray ps => ps
  end.

(** ** The rest of the effect: the chart instance and the resize listener *)

(** What the component touches outside itself.  A listener is named by a
    number, [next_listener] is the name of the next function object to be
    created; [initialized] and [disposed] count the calls of [echarts.init]
    and of [dispose]. *)
Record Host : Type := mkHost {
  resize_listeners : list nat;
  next_listener : nat;
  initialized : nat;
  disposed : nat
}.

(** [window.addEventListener("resize", h)]: a function that is already
    registered is not registered again. *)
Definition addEventListener (h : nat) (host : Host) : Host :=
  {| resize_listeners :=
       if decide (h ∈ resize_listeners host) then resize_listeners host
       else resize_listeners host ++ [h];
     next_listener := next_listener host;
     initialized := initialized host;
     disposed := disposed host |}.

(** [window.removeEventListener("resize", h)]. *)
Definition removeEventListener (h : nat) (host : Host) : Host :=
  {| resize_listeners := filter (λ h', h' ≠ h) (resize_listeners host);
     next_listener := next_listener host;
     initialized := initialized host;
     disposed := disposed host |}.

Section Lifecycle.
Context `{Platform}.

(** Lines 62-195 with their effects on the host.  The last component of the
    result is the function the cleanup of lines 192-194 will remove, when
    the effect returns a cleanup. *)
Definition run_effect (host : Host) (chartRef_current : bool)
    (chartInstanceRef : option ECharts) (chartData : option MetricsMap)
  : outcome (Host * option ECharts * option ChartOption * option nat) :=
  match chartRef_current, chartData with
  | true, Some m =>
      let host :=
        match chartInstanceRef with
        | None => {| resize_listeners := resize_listeners host;
                     next_listener := next_listener host;
                     initialized := S (initialized host);
                     disposed := disposed host |}
        | Some _ => host
        end in
      opt ← build_option m;
      let handleResize := next_listener host in
      let host := {| resize_listeners := resize_listeners host;
                     next_listener := S (next_listener host);
                     initialized := initialized host;
                     disposed := disposed host |} in
      Returns (addEventListener handleResize host,
               Some {| current_option := Some opt |}, Some opt, Some handleResize)
  | _, _ => Returns (host, chartInstanceRef, None, None)
  end.

(** Lines 192-194. *)
Definition effect_cleanup (handleResize : nat) (host : Host) : Host :=
  removeEventListener handleResize host.

(** Lines 198-205: the cleanup of the effect without dependencies. *)
Definition unmount_cleanup (host : Host) (chartInstanceRef : option ECharts)
  : Host * option ECharts :=
  match chartInstanceRef with
  | Some _ => ({| resize_listeners := resize_listeners host;
                  next_listener := next_listener host;
                  initialized := initialized host;
                  disposed := S (disposed host) |}, None)
  | None => (host, chartInstanceRef)
  end.

(** A mounted component: the host, [chartInstanceRef.current] and the
    cleanup that the last run of the effect left behind. *)
Record Mounted : Type := mkMounted {
  mounted_host : Host;
  mounted_instance : option ECharts;
  mounted_cleanup : option nat
}.

Definition run_cleanup (cleanup : option nat) (host : Host) : Host :=
  match cleanup with
  | Some handleResize => effect_cleanup handleResize host
  | None => host
  end.

(** A render with new [data]: the framework runs the cleanup of the
    previous run of the effect, then the effect. *)
Definition update (st : Mounted) (data : option (list DataPoint))
    (height : option Z) : outcome (Mounted * View * option ChartOption) :=
  let height := default 400%Z height in
  cd ← chartData data;
  let v := view cd height in
  let host := run_cleanup (mounted_cleanup st) (mounted_host st) in
  r ← run_effect host (chartRef_current v) (mounted_instance st) cd;
  Returns ({| mounted_host := r.1.1.1;
              mounted_instance := r.1.1.2;
              mounted_cleanup := r.2 |}, v, r.1.2).

(** Unmounting: the framework runs the pending cleanups, in the order of
    the effects. *)
Definition unmount (st : Mounted) : Host * option ECharts :=
  unmount_cleanup (run_cleanup (mounted_cleanup st) (mounted_host st))
                  (mounted_instance st).

(** A sequence of renders from a given state. *)
Fixpoint updates (st : Mounted) (inputs : list (option (list DataPoint)))
    (height : option Z) : outcome Mounted :=
  match inputs with
  | [] => Returns st
  | data :: inputs' => r ← update st data height; updates r.1.1 inputs' height
  end.
End Lifecycle.

(** The component right after it was mounted on [host]. *)
Definition mount (host : Host) : Mounted :=
  {| mounted_host := host; mounted_instance := None; mounted_cleanup := None |}.

(** The names of the listeners in use are below the next fresh name. *)
Definition host_ok (host : Host) : Prop :=
  Forall (λ h, h < next_listener host) (resize_listeners host).

(** What holds of a mounted component between renders, on a host whose
    listeners were [others] and whose counters were [inits] and [disposals]
    when the component was mounted: the component has at most its pending
    listener registered, and has initialized a chart exactly when it holds
    one. *)
Definition lifecycle_inv (others : list nat) (inits disposals : nat)
    (st : Mounted) : Prop :=
  resize_listeners (mounted_host st) = others ++ option_list (mounted_cleanup st)
  ∧ (∀ h, mounted_cleanup st = Some h → h ∉ others)
  ∧ host_ok (mounted_host st)
  ∧ initialized (mounted_host st)
    = inits + (if mounted_instance st is Some _ then 1 else 0)
  ∧ disposed (mounted_host st) = disposals.

(** ** Vocabulary of the further properties *)

(** The entries of a record that the normalizer reads. *)
Definition reading_entries (item : DataPoint) : list (string * PropertyValue) :=
  filter (λ e, is_reading_object e.2) (metrics_entries item).

(** The names of the metrics in the order in which the normalizer meets
    their readings, with repetitions. *)
Definition metric_names (data : list DataPoint) : list string :=
  item ← data; fst <$> reading_entries item.

(** Every element once, at the place of its first occurrence. *)
Fixpoint first_occurrences (l : list string) : list string :=
  match l with
  | [] => []
  | x :: l' => x :: filter (λ y, y ≠ x) (first_occurrences l')
  end.

(** The number of samples of a mapping. *)
Definition total_samples (m : MetricsMap) : nat :=
  sum_list ((λ e, length e.2) <$> m).

(** The data entries of a series that are drawn. *)
Definition drawn (data : list (option spec_float)) : list (option spec_float) :=
  filter (λ x, is_Some x) data.

(** * Facts about the builtins *)

Section outcome_facts.
Context {A S : Type}.

Lemma forEachM_app (f : S → A → outcome S) (l k : list A) (s : S) :
  forEachM f (l ++ k) s = s' ← forEachM f l s; forEachM f k s'.
Proof.
  revert s. induction l as [|x l IH]; intros s; simpl; [done|].
  destruct (f s x) as [s'|e]; simpl; [apply IH|done].
Qed.

(** A loop whose body never throws is a left fold. *)
Lemma forEachM_total (f : S → A → outcome S) (g : S → A → S) (l : list A) (s : S) :
  (∀ s x, x ∈ l → f s x = Returns (g s x)) →
  forEachM f l s = Returns (foldl g s l).
Proof.
  revert s. induction l as [|x l IH]; intros s Hf; simpl; [done|].
  rewrite Hf by left. simpl. apply IH. intros s' y Hy. apply Hf. by right.
Qed.
End outcome_facts.

Section map_facts.
Context {K V : Type} `{EqDecision K}.
Implicit Types (m : list (K * V)) (k : K) (v : V).

Lemma get_set k k' v m :
  JsMap.get k (JsMap.set k' v m)
  = if decide (k' = k) then Some v else JsMap.get k m.
Proof.
  induction m as [|[k0 v0] m IH]; simpl.
  - by repeat case_decide.
  - destruct (decide (k0 = k')) as [->|Hne]; simpl.
    + by repeat case_decide.
    + rewrite IH. repeat case_decide; congruence.
Qed.

Lemma get_None k m : JsMap.get k m = None ↔ k ∉ JsMap.keys m.
Proof.
  unfold JsMap.keys. induction m as [|[k0 v0] m IH]; simpl.
  - split; [intros _; apply not_elem_of_nil|done].
  - rewrite not_elem_of_cons, <-IH. case_decide; subst.
    + split; [done|by intros [? _]].
    + split; [auto|by intros [_ ?]].
Qed.

Lemma get_Some_elem_of k v m : JsMap.get k m = Some v → (k, v) ∈ m.
Proof.
  induction m as [|[k0 v0] m IH]; simpl; [done|].
  case_decide; intros; simplify_eq; [left|right; auto].
Qed.

Lemma get_is_Some k m : is_Some (JsMap.get k m) ↔ k ∈ JsMap.keys m.
Proof.
  rewrite <-not_eq_None_Some, get_None.
  split; [apply dec_stable|auto].
Qed.

Lemma has_keys k m : JsMap.has k m = true ↔ k ∈ JsMap.keys m.
Proof.
  rewrite <-get_is_Some. unfold JsMap.has.
  destruct (JsMap.get k m); split; intros; try done; by destruct select (is_Some _).
Qed.

Lemma keys_set k v m :
  JsMap.keys (JsMap.set k v m)
  = if JsMap.has k m then JsMap.keys m else JsMap.keys m ++ [k].
Proof.
  unfold JsMap.keys, JsMap.has. induction m as [|[k0 v0] m IH]; simpl; [done|].
  case_decide; simplify_eq; csimpl; [done|].
  rewrite IH. by destruct (JsMap.get k m).
Qed.

Lemma NoDup_keys_set k v m :
  NoDup (JsMap.keys m) → NoDup (JsMap.keys (JsMap.set k v m)).
Proof.
  intros Hm. rewrite keys_set. destruct (JsMap.has k m) eqn:Hk; [done|].
  apply NoDup_app. split_and!; [done| |apply NoDup_singleton].
  intros x Hx ->%list_elem_of_singleton.
  apply has_keys in Hx. congruence.
Qed.

Lemma get_NoDup k v m :
  NoDup (JsMap.keys m) → (k, v) ∈ m → JsMap.get k m = Some v.
Proof.
  unfold JsMap.keys. induction m as [|[k0 v0] m IH]; csimpl.
  - by intros _ ?%elem_of_nil.
  - intros [Hk0 Hm]%NoDup_cons [?|Hin]%elem_of_cons; simplify_eq.
    + by rewrite decide_True.
    + rewrite decide_False; [auto|].
      intros ->. apply Hk0. apply list_elem_of_fmap. by exists (k, v).
Qed.

(** [new Map(entries)]: of the entries with one key, the last one wins. *)
Lemma get_of_entries k (es : list (K * V)) :
  JsMap.get k (JsMap.of_entries es) = snd <$> last (filter (λ e, e.1 = k) es).
Proof.
  unfold JsMap.of_entries.
  enough (∀ acc,
    JsMap.get k (foldl (λ m e, JsMap.set e.1 e.2 m) acc es)
    = match last (filter (λ e, e.1 = k) es) with
      | Some e => Some e.2
      | None => JsMap.get k acc
      end) as Hgen.
  { rewrite Hgen. by destruct (last _). }
  induction es as [|e es IH]; intros acc; simpl; [done|].
  rewrite IH, get_set, filter_cons.
  case_decide; [|done].
  rewrite last_cons. by destruct (last _).
Qed.
End map_facts.

Section set_facts.
Implicit Types (s l : list Z).

Lemma elem_of_add x y s : x ∈ JsSet.add y s ↔ x = y ∨ x ∈ s.
Proof.
  unfold JsSet.add. case_decide.
  - split; [auto|by intros [->|?]].
  - rewrite elem_of_app, list_elem_of_singleton. tauto.
Qed.

Lemma NoDup_add y s : NoDup s → NoDup (JsSet.add y s).
Proof.
  intros Hs. unfold JsSet.add. case_decide; [done|].
  apply NoDup_app. split_and!; [done| |apply NoDup_singleton].
  by intros x Hx ->%list_elem_of_singleton.
Qed.

Lemma elem_of_add_all x l s :
  x ∈ foldl (λ s t, JsSet.add t s) s l ↔ x ∈ s ∨ x ∈ l.
Proof.
  revert s. induction l as [|y l IH]; intros s; simpl.
  - rewrite elem_of_nil. tauto.
  - rewrite IH, elem_of_add, elem_of_cons. tauto.
Qed.

Lemma NoDup_add_all l s : NoDup s → NoDup (foldl (λ s t, JsSet.add t s) s l).
Proof. revert s. induction l; simpl; auto using NoDup_add. Qed.
End set_facts.

(** [Array.prototype.sort] with a comparator that orders by a numeric key. *)
Section sort_facts.
Context {A : Type} (cmp : A → A → Z) (key : A → Z).
Hypothesis cmp_key : ∀ a b, (cmp a b ≤ 0 ↔ key a ≤ key b)%Z.

Lemma insert_Permutation x l : JsArray.insert cmp x l ≡ₚ x :: l.
Proof.
  induction l as [|y l IH]; simpl; [done|].
  case_decide; [done|]. rewrite IH. apply Permutation_swap.
Qed.

Lemma sort_Permutation l : JsArray.sort cmp l ≡ₚ l.
Proof.
  induction l as [|x l IH]; simpl; [done|].
  by rewrite insert_Permutation, IH.
Qed.

Lemma sort_length l : length (JsArray.sort cmp l) = length l.
Proof. by rewrite sort_Permutation. Qed.

Lemma elem_of_sort x l : x ∈ JsArray.sort cmp l ↔ x ∈ l.
Proof. by rewrite sort_Permutation. Qed.

Lemma insert_Sorted x l :
  StronglySorted (λ a b, key a ≤ key b)%Z l →
  StronglySorted (λ a b, key a ≤ key b)%Z (JsArray.insert cmp x l).
Proof.
  induction 1 as [|y l Hl IH Hy]; simpl.
  - repeat constructor.
  - case_decide as Hxy.
    + apply cmp_key in Hxy. constructor; [by constructor|].
      constructor; [done|]. eapply Forall_impl; [done|]. simpl. lia.
    + constructor; [done|].
      rewrite insert_Permutation. constructor; [|done].
      rewrite cmp_key in Hxy. lia.
Qed.

Lemma sort_Sorted l : StronglySorted (λ a b, key a ≤ key b)%Z (JsArray.sort cmp l).
Proof. induction l; simpl; [constructor|by apply insert_Sorted]. Qed.

Lemma filter_key_insert t x l :
  filter (λ a, key a = t) (JsArray.insert cmp x l)
  = filter (λ a, key a = t) (x :: l).
Proof.
  induction l as [|y l IH]; simpl; [done|].
  case_decide as Hxy; [done|].
  rewrite cmp_key in Hxy.
  rewrite (filter_cons _ y), IH, !filter_cons.
  repeat case_decide; try done; lia.
Qed.

(** Stability: the elements with one key keep their relative order. *)
Lemma sort_stable t l :
  filter (λ a, key a = t) (JsArray.sort cmp l) = filter (λ a, key a = t) l.
Proof.
  induction l as [|x l IH]; simpl; [done|].
  by rewrite filter_key_insert, !filter_cons, IH.
Qed.
End sort_facts.

Lemma by_timestamp_key a b : (by_timestamp a b ≤ 0 ↔ timestamp a ≤ timestamp b)%Z.
Proof. unfold by_timestamp. lia. Qed.

Lemma sub_key (a b : Z) : (a - b ≤ 0 ↔ id a ≤ id b)%Z.
Proof. unfold id. lia. Qed.

(** A sorted list without repetitions is strictly increasing. *)
Lemma StronglySorted_lt (l : list Z) :
  StronglySorted Z.le l → NoDup l → StronglySorted Z.lt l.
Proof.
  induction 1 as [|x l Hl IH Hx]; intros Hnd; [constructor|].
  apply NoDup_cons in Hnd as [Hx' Hnd]. constructor; [auto|].
  rewrite Forall_forall in Hx |- *. intros y Hy.
  specialize (Hx y Hy). assert (x ≠ y) by (by intros ->). lia.
Qed.

(** A position of a list without repetitions is determined by its element. *)
Lemma NoDup_position (l : list Z) (t : Z) (i j : nat) :
  NoDup l → l !! i = Some t → l !! j = Some t → i = j.
Proof. intros Hl Hi Hj. by eapply NoDup_lookup. Qed.

(** [Array.prototype.find] with an equality test on the timestamp. *)
Lemma find_timestamp (t : Z) (metricData : list Sample) :
  find (λ item, bool_decide (Some (timestamp item) = Some t)) metricData
  = head (samples_at t metricData).
Proof.
  unfold samples_at. induction metricData as [|s l IH]; simpl; [done|].
  rewrite filter_cons. case_bool_decide; simplify_eq.
  - by rewrite decide_True.
  - rewrite decide_False; [done|congruence].
Qed.

Lemma find_no_timestamp (metricData : list Sample) :
  find (λ item, bool_decide (Some (timestamp item) = None)) metricData = None.
Proof. induction metricData as [|s l IH]; [done|]. exact IH. Qed.

(** * The normalizer *)

Lemma pushed_app o l1 l2 : pushed (pushed o l1) l2 = pushed o (l1 ++ l2).
Proof.
  destruct o as [v|], l1 as [|x1 l1], l2 as [|x2 l2]; simpl;
    by rewrite ?app_nil_r, <-?(assoc_L (++)).
Qed.

Lemma pushed_nil o : pushed o [] = o.
Proof. destruct o; simpl; by rewrite ?app_nil_r. Qed.

Lemma pushed_None l : pushed None l = if decide (l = []) then None else Some l.
Proof. by destruct l. Qed.

Section normalizer_facts.
Context `{Platform}.

(** One step of the inner loop never throws, keeps the keys distinct and
    pushes the entry's sample, if it has one, on its own series. *)
Lemma observe_spec (m : MetricsMap) (e : string * PropertyValue) :
  ∃ m', observe m e = Returns m'
        ∧ (NoDup (JsMap.keys m) → NoDup (JsMap.keys m'))
        ∧ ∀ name, JsMap.get name m' = pushed (JsMap.get name m) (reading_for name e).
Proof.
  destruct e as [k [n| |r]]; simpl.
  - exists m. split_and!; [done..|]. intros name. by rewrite pushed_nil.
  - exists m. split_and!; [done..|]. intros name. by rewrite pushed_nil.
  - unfold is_reading_object; simpl.
    unfold JsMap.has. destruct (JsMap.get k m) as [values|] eqn:Hk.
    + rewrite Hk. eexists. split_and!; [done|apply NoDup_keys_set|].
      intros name. rewrite get_set. unfold reading_for; simpl.
      case_decide; simplify_eq; [by rewrite Hk|by rewrite pushed_nil].
    + rewrite get_set, decide_True by done.
      eexists. split_and!; [done|intros; by do 2 apply NoDup_keys_set|].
      intros name. rewrite !get_set. unfold reading_for; simpl.
      case_decide; simplify_eq; [by rewrite Hk|by rewrite pushed_nil].
Qed.

Lemma forEach_observe_spec (es : list (string * PropertyValue)) (m : MetricsMap) :
  ∃ m', forEachM observe es m = Returns m'
        ∧ (NoDup (JsMap.keys m) → NoDup (JsMap.keys m'))
        ∧ ∀ name, JsMap.get name m'
                  = pushed (JsMap.get name m) (es ≫= reading_for name).
Proof.
  revert m. induction es as [|e es IH]; intros m; simpl.
  - exists m. split_and!; [done..|]. intros. by rewrite pushed_nil.
  - destruct (observe_spec m e) as (m1 & -> & Hnd1 & Hget1). simpl.
    destruct (IH m1) as (m2 & -> & Hnd2 & Hget2).
    exists m2. split_and!; [done|auto|].
    intros name. by rewrite Hget2, Hget1, pushed_app.
Qed.

Lemma collect_from (data : list DataPoint) (acc : MetricsMap) :
  ∃ m, forEachM (λ metricsMap item,
                   forEachM observe (metrics_entries item) metricsMap) data acc
       = Returns m
       ∧ (NoDup (JsMap.keys acc) → NoDup (JsMap.keys m))
       ∧ ∀ name, JsMap.get name m
                 = pushed (JsMap.get name acc) (readings_of name data).
Proof.
  revert acc. induction data as [|item data IH]; intros acc; simpl.
  - exists acc. split_and!; [done..|]. intros. by rewrite pushed_nil.
  - destruct (forEach_observe_spec (metrics_entries item) acc)
      as (m1 & -> & Hnd1 & Hget1). simpl.
    destruct (IH m1) as (m2 & -> & Hnd2 & Hget2).
    exists m2. split_and!; [done|auto|].
    intros name. rewrite Hget2, Hget1, pushed_app. done.
Qed.

Lemma collect_spec (data : list DataPoint) :
  ∃ m, collect data = Returns m
       ∧ NoDup (JsMap.keys m)
       ∧ ∀ name, JsMap.get name m = pushed None (readings_of name data).
Proof.
  destruct (collect_from data []) as (m & Hm & Hnd & Hget).
  exists m. split_and!; [done|apply Hnd, NoDup_nil_2|done].
Qed.

Lemma keys_sort_each (m : MetricsMap) : JsMap.keys (sort_each m) = JsMap.keys m.
Proof.
  unfold JsMap.keys, sort_each. rewrite <-list_fmap_compose.
  by apply list_fmap_ext.
Qed.

Lemma get_sort_each name (m : MetricsMap) :
  JsMap.get name (sort_each m) = JsArray.sort by_timestamp <$> JsMap.get name m.
Proof.
  induction m as [|[k v] m IH]; simpl; [done|].
  case_decide; [done|apply IH].
Qed.

(** The normalizer on a non-empty input, in closed form. *)
Lemma chartData_spec (data : list DataPoint) :
  data ≠ [] →
  ∃ cd, chartData (Some data) = Returns (Some cd)
        ∧ NoDup (JsMap.keys cd)
        ∧ ∀ name, JsMap.get name cd
                  = JsArray.sort by_timestamp <$> pushed None (readings_of name data).
Proof.
  intros Hne. destruct (collect_spec data) as (m & Hm & Hnd & Hget).
  exists (sort_each m). split_and!.
  - destruct data; [done|]. unfold chartData. by rewrite Hm.
  - by rewrite keys_sort_each.
  - intros name. by rewrite get_sort_each, Hget.
Qed.

(** Where a sample of the readings of [name] comes from. *)
Lemma elem_of_readings_of (s : Sample) name (data : list DataPoint) :
  s ∈ readings_of name data
  ↔ name ≠ "category"
    ∧ ∃ item r, item ∈ data ∧ (name, PReading r) ∈ item ∧ s = sample_of r.
Proof.
  unfold readings_of. rewrite list_elem_of_bind. split.
  - intros (item & Hs & Hitem).
    apply list_elem_of_bind in Hs as ([k v] & Hs & He).
    apply list_elem_of_filter in He as [Hk He]. simpl in Hk.
    unfold reading_for in Hs; simpl in Hs.
    destruct v as [| |r]; try by apply elem_of_nil in Hs.
    case_decide; [|by apply elem_of_nil in Hs].
    apply list_elem_of_singleton in Hs. simplify_eq. eauto 6.
  - intros (Hcat & item & r & Hitem & Hr & ->). exists item. split; [|done].
    apply list_elem_of_bind. exists (name, PReading r). split.
    + unfold reading_for; simpl. rewrite decide_True by done. left.
    + by apply list_elem_of_filter.
Qed.

(** Which records give a reading for [name]. *)
Lemma readings_of_nonempty name (data : list DataPoint) :
  readings_of name data ≠ []
  ↔ name ≠ "category"
    ∧ ∃ item r, item ∈ data ∧ (name, PReading r) ∈ item.
Proof.
  unfold readings_of. split.
  - intros Hne.
    destruct (item ← data; entry ← metrics_entries item; reading_for name entry)
      as [|s l] eqn:Hl; [done|].
    assert (s ∈ s :: l) as Hs by left. rewrite <-Hl in Hs.
    apply list_elem_of_bind in Hs as (item & Hs & Hitem).
    apply list_elem_of_bind in Hs as ([k v] & Hs & He).
    apply list_elem_of_filter in He as [Hk He]. simpl in Hk.
    unfold reading_for in Hs; simpl in Hs.
    destruct v as [| |r]; try by apply elem_of_nil in Hs.
    case_decide; [|by apply elem_of_nil in Hs]. simplify_eq. eauto.
  - intros (Hcat & item & r & Hitem & Hr) Hnil.
    assert (sample_of r ∈ (item ← data; entry ← metrics_entries item;
                           reading_for name entry)) as Hin.
    { apply list_elem_of_bind. exists item. split; [|done].
      apply list_elem_of_bind. exists (name, PReading r). split.
      - unfold reading_for; simpl. rewrite decide_True by done. left.
      - by apply list_elem_of_filter. }
    rewrite Hnil in Hin. by apply elem_of_nil in Hin.
Qed.

Lemma readings_absent name (item : DataPoint) :
  name ∉ item.*1 → (metrics_entries item ≫= reading_for name) = [].
Proof.
  unfold metrics_entries.
  induction item as [|[k v] item IH]; [done|].
  rewrite fmap_cons, not_elem_of_cons, filter_cons. simpl. intros [Hk Hin].
  case_decide; [rewrite bind_cons|]; rewrite IH by done; [|done].
  unfold reading_for; simpl. destruct v; try done. by rewrite decide_False.
Qed.

Lemma contributes_absent name (item : DataPoint) :
  name ∉ item.*1 → contributes name item = false.
Proof.
  unfold contributes. intros Hin. apply andb_false_intro2.
  induction item as [|[k v] item IH]; [done|].
  rewrite fmap_cons, not_elem_of_cons in Hin. destruct Hin as [Hk Hin].
  simpl in *. rewrite IH by done. by rewrite bool_decide_eq_false_2.
Qed.

(** What one entry adds to the count of readings for [name]. *)
Lemma length_reading_for name k v :
  length (reading_for name (k, v))
  = if bool_decide (k = name) && is_reading_object v then 1 else 0.
Proof.
  unfold reading_for, is_reading_object; simpl.
  destruct v; simpl; rewrite ?andb_false_r; try done.
  by case_decide; case_bool_decide.
Qed.

(** A well-formed record gives one reading for [name] when it contributes,
    and none otherwise. *)
Lemma length_readings_item name (item : DataPoint) :
  well_formed item →
  length (metrics_entries item ≫= reading_for name)
  = if contributes name item then 1 else 0.
Proof.
  unfold well_formed.
  induction item as [|[k v] item IH].
  { intros _. unfold contributes. simpl. by rewrite andb_false_r. }
  rewrite fmap_cons, NoDup_cons. simpl. intros [Hk Hnd].
  specialize (IH Hnd). revert IH.
  unfold metrics_entries, contributes. rewrite filter_cons. simpl.
  destruct (decide (k = name)) as [->|Hne].
  - pose proof (readings_absent name item Hk) as Habs.
    pose proof (contributes_absent name item Hk) as Hc.
    unfold metrics_entries in Habs. unfold contributes in Hc.
    intros _. rewrite (bool_decide_eq_true_2 (name = name)) by done. simpl.
    case_bool_decide as Hcat; simpl in *.
    + rewrite decide_True by done.
      rewrite bind_cons, length_app, Habs, length_reading_for, Hc.
      rewrite bool_decide_eq_true_2 by done. simpl.
      by destruct (is_reading_object v).
    + rewrite decide_False by (by intros ?). by rewrite Habs.
  - intros IH. rewrite (bool_decide_eq_false_2 (k = name)) by done. simpl.
    destruct (decide (k ≠ "category")); [|exact IH].
    rewrite bind_cons, length_app, IH, length_reading_for.
    by rewrite bool_decide_eq_false_2.
Qed.

Lemma length_readings_of name (data : list DataPoint) :
  Forall well_formed data →
  length (readings_of name data)
  = length (filter (λ item, contributes name item) data).
Proof.
  unfold readings_of. induction 1 as [|item data Hitem Hdata IH]; [done|].
  rewrite bind_cons, length_app, IH, length_readings_item, filter_cons by done.
  destruct (contributes name item); simpl; done.
Qed.
End normalizer_facts.

(** * The builder *)

Section timeline_facts.
Implicit Types (cd : list (string * list Sample)).

Lemma allTimestamps_every cd :
  allTimestamps cd = foldl (λ s t, JsSet.add t s) [] (every_timestamp cd).
Proof.
  unfold allTimestamps, every_timestamp. generalize (@nil Z) as acc.
  induction cd as [|[k v] cd IH]; intros acc; [done|].
  rewrite bind_cons, foldl_app. simpl. rewrite IH. f_equal.
  by rewrite foldl_fmap.
Qed.

Lemma elem_of_allTimestamps t cd : t ∈ allTimestamps cd ↔ t ∈ every_timestamp cd.
Proof.
  rewrite allTimestamps_every, elem_of_add_all, elem_of_nil. tauto.
Qed.

Lemma NoDup_allTimestamps cd : NoDup (allTimestamps cd).
Proof. rewrite allTimestamps_every. apply NoDup_add_all, NoDup_nil_2. Qed.

Lemma sortedTimestamps_Permutation cd : sortedTimestamps cd ≡ₚ allTimestamps cd.
Proof. apply sort_Permutation. Qed.

Lemma elem_of_sortedTimestamps t cd :
  t ∈ sortedTimestamps cd ↔ t ∈ every_timestamp cd.
Proof. by rewrite sortedTimestamps_Permutation, elem_of_allTimestamps. Qed.

Lemma NoDup_sortedTimestamps cd : NoDup (sortedTimestamps cd).
Proof. rewrite sortedTimestamps_Permutation. apply NoDup_allTimestamps. Qed.

Lemma sortedTimestamps_le cd : StronglySorted Z.le (sortedTimestamps cd).
Proof. apply (sort_Sorted Z.sub id sub_key). Qed.

Lemma sortedTimestamps_lt cd : StronglySorted Z.lt (sortedTimestamps cd).
Proof.
  apply StronglySorted_lt; [apply sortedTimestamps_le|apply NoDup_sortedTimestamps].
Qed.

Lemma elem_of_every_timestamp t cd :
  t ∈ every_timestamp cd
  ↔ ∃ name metricData s, (name, metricData) ∈ cd ∧ s ∈ metricData ∧ timestamp s = t.
Proof.
  unfold every_timestamp. rewrite list_elem_of_bind. split.
  - intros ([name md] & (s & -> & Hs)%list_elem_of_fmap & Hin). eauto 6.
  - intros (name & md & s & Hin & Hs & <-). exists (name, md).
    split; [|done]. apply list_elem_of_fmap. eauto.
Qed.

Lemma length_every_timestamp cd :
  length (every_timestamp cd) = sum_list ((λ e, length e.2) <$> cd).
Proof.
  unfold every_timestamp. induction cd as [|e cd IH]; [done|].
  rewrite bind_cons, length_app, length_fmap, IH. done.
Qed.

Lemma length_sortedTimestamps cd :
  length (sortedTimestamps cd) = length (remove_dups (every_timestamp cd)).
Proof.
  apply Permutation_length, NoDup_Permutation.
  - apply NoDup_sortedTimestamps.
  - apply NoDup_remove_dups.
  - intros t. by rewrite elem_of_sortedTimestamps, elem_of_remove_dups.
Qed.

Lemma length_sortedTimestamps_le cd :
  length (sortedTimestamps cd) ≤ sum_list ((λ e, length e.2) <$> cd).
Proof.
  rewrite <-length_every_timestamp. apply submseteq_length, NoDup_submseteq.
  - apply NoDup_sortedTimestamps.
  - intros t. by rewrite elem_of_sortedTimestamps.
Qed.
End timeline_facts.

Section series_facts.
Implicit Types (cd : list (string * list Sample)) (T : list Z).

(** The alignment map keeps, for each timestamp, the last sample of the
    series that carries it. *)
Lemma get_dataMap t (metricData : list Sample) :
  JsMap.get t (dataMap metricData) = last (samples_at t metricData).
Proof.
  unfold dataMap, samples_at. rewrite get_of_entries.
  induction metricData as [|s l IH]; [done|].
  rewrite fmap_cons, !filter_cons. simpl.
  case_decide; [|done].
  rewrite !last_cons, <-IH. by destruct (last _).
Qed.

Lemma length_aligned_data T metricData :
  length (aligned_data T metricData) = length T.
Proof. unfold aligned_data. by rewrite length_fmap. Qed.

Lemma lookup_aligned_data T metricData i t :
  T !! i = Some t →
  aligned_data T metricData !! i = Some (value <$> last (samples_at t metricData)).
Proof.
  intros Hi. unfold aligned_data. rewrite list_lookup_fmap, Hi. simpl.
  rewrite get_dataMap. by destruct (last _).
Qed.

(** The series loop never throws: every key of a map has a value. *)
Lemma build_series_spec cd T :
  build_series cd T
  = Returns ((λ name, make_series T name (default [] (JsMap.get name cd)))
               <$> JsMap.keys cd).
Proof.
  unfold build_series.
  rewrite (forEachM_total _
    (λ series name, series ++ [make_series T name (default [] (JsMap.get name cd))])).
  - f_equal. generalize (JsMap.keys cd) as names.
    enough (∀ names acc,
      foldl (λ series name,
               series ++ [make_series T name (default [] (JsMap.get name cd))])
            acc names
      = acc ++ ((λ name, make_series T name (default [] (JsMap.get name cd)))
                  <$> names)) as Hgen by (intros; by rewrite Hgen).
    induction names as [|n names IH]; intros acc; simpl.
    + by rewrite app_nil_r.
    + by rewrite IH, <-(assoc_L (++)).
  - intros series name Hname. apply get_is_Some in Hname as [md ->]. done.
Qed.
End series_facts.

Section tooltip_facts.
Context `{Platform}.
Implicit Types (cd : list (string * list Sample)).

Lemma tooltip_step_at cd t result (p : Param) (metricData : list Sample) :
  JsMap.get (seriesName p) cd = Some metricData →
  tooltip_step cd (Some t) result p
  = Returns match head (samples_at t metricData) with
            | Some dataPoint => result +:+ tooltip_line p dataPoint
            | None => result
            end.
Proof.
  intros Hmd. unfold tooltip_step. rewrite Hmd, find_timestamp.
  by destruct (head _).
Qed.

Lemma tooltip_step_total cd ts result (p : Param) :
  seriesName p ∈ JsMap.keys cd →
  ∃ text, tooltip_step cd ts result p = Returns text.
Proof.
  intros [md Hmd]%get_is_Some. unfold tooltip_step. rewrite Hmd.
  destruct (find _ md); by eexists.
Qed.

(** The formatter's loop at a timestamp of the timeline: every series that
    has a sample there appends its line, the others append nothing. *)
Lemma forEach_tooltip_step cd t mark i (names : list string) result :
  (∀ name, name ∈ names → name ∈ JsMap.keys cd) →
  forEachM (tooltip_step cd (Some t)) (axis_params mark i names) result
  = Returns (foldl String.append result
      (omap (λ name, metricData ← JsMap.get name cd;
                     dataPoint ← head (samples_at t metricData);
                     Some (tooltip_line
                             {| seriesName := name; marker := mark name;
                                dataIndex := i |} dataPoint))
            names)).
Proof.
  revert result. induction names as [|n names IH]; intros result Hin; [done|].
  cbn [axis_params fmap list_fmap forEachM omap list_omap].
  assert (n ∈ JsMap.keys cd) as [md Hmd]%get_is_Some by (apply Hin; left).
  rewrite (tooltip_step_at _ _ _ _ md) by done. rewrite Hmd.
  cbn [mbind option_bind].
  destruct (head (samples_at t md)) as [dp|];
    cbn [mbind option_bind outcome_bind foldl];
    apply IH; intros; apply Hin; by right.
Qed.

Lemma omap_fmap_metrics cd t (f : string → Sample → string) (names : list string) :
  omap (λ name, metricData ← JsMap.get name cd;
                dataPoint ← head (samples_at t metricData);
                Some (f name dataPoint)) names
  = (λ nd, f nd.1 nd.2)
      <$> omap (λ name, metricData ← JsMap.get name cd;
                        dataPoint ← head (samples_at t metricData);
                        Some (name, dataPoint)) names.
Proof.
  induction names as [|n names IH]; [done|]. cbn.
  destruct (JsMap.get n cd) as [md|]; cbn; [|done].
  destruct (head (samples_at t md)); cbn; by rewrite ?IH.
Qed.

(** Outside the timeline the formatter finds no sample at all. *)
Lemma forEach_tooltip_step_None cd (ps : list Param) result :
  Forall (λ p, seriesName p ∈ JsMap.keys cd) ps →
  forEachM (tooltip_step cd None) ps result = Returns result.
Proof.
  induction 1 as [|p ps [md Hmd]%get_is_Some _ IH]; [done|].
  cbn [forEachM]. replace (tooltip_step cd None result p) with (Returns (A:=string) result).
  - apply IH.
  - unfold tooltip_step. by rewrite Hmd, find_no_timestamp.
Qed.

Lemma forEach_tooltip_step_total cd ts (ps : list Param) result :
  Forall (λ p, seriesName p ∈ JsMap.keys cd) ps →
  ∃ text, forEachM (tooltip_step cd ts) ps result = Returns text.
Proof.
  intros Hps. revert result.
  induction Hps as [|p ps Hp _ IH]; intros result; [by eexists|].
  cbn [forEachM]. destruct (tooltip_step_total cd ts result p Hp) as [text ->].
  apply IH.
Qed.

(** The formatter returns on the parameters of the chart's own series. *)
Lemma formatter_total cd T (params : FormatterParams) :
  Forall (λ p, seriesName p ∈ JsMap.keys cd) (params_of params) →
  ∃ text, formatter cd T params = Returns text.
Proof.
  destruct params as [p|[|p0 ps]]; [by eexists..|].
  intros Hps. unfold formatter. by apply forEach_tooltip_step_total.
Qed.

Lemma elem_of_metrics_at cd t name dp :
  (name, dp) ∈ metrics_at cd t
  ↔ ∃ metricData, JsMap.get name cd = Some metricData
                  ∧ head (samples_at t metricData) = Some dp.
Proof.
  unfold metrics_at. rewrite list_elem_of_omap. split.
  - intros (n & Hn & Hsome).
    destruct (JsMap.get n cd) as [md|] eqn:Hmd; [|done]. cbn in Hsome.
    destruct (head (samples_at t md)) eqn:Hhd; [|done]. cbn in Hsome.
    simplify_eq. eauto.
  - intros (md & Hmd & Hhd). exists name. split.
    + apply get_is_Some. eauto.
    + by rewrite Hmd; cbn; rewrite Hhd.
Qed.

Lemma metrics_at_names cd t name :
  name ∈ (metrics_at cd t).*1
  ↔ ∃ metricData s, JsMap.get name cd = Some metricData
                    ∧ s ∈ metricData ∧ timestamp s = t.
Proof.
  rewrite list_elem_of_fmap. split.
  - intros ([n dp] & -> & (md & Hmd & Hhd)%elem_of_metrics_at).
    apply head_Some_elem_of in Hhd.
    apply list_elem_of_filter in Hhd as [? ?]. eauto.
  - intros (md & s & Hmd & Hs & Ht).
    destruct (head (samples_at t md)) as [dp|] eqn:Hhd.
    + exists (name, dp). split; [done|]. apply elem_of_metrics_at. eauto.
    + apply head_None in Hhd.
      assert (s ∈ samples_at t md) as Hin
        by (by apply list_elem_of_filter).
      rewrite Hhd in Hin. by apply elem_of_nil in Hin.
Qed.

Lemma NoDup_metrics_at cd t :
  NoDup (JsMap.keys cd) → NoDup (metrics_at cd t).*1.
Proof.
  unfold metrics_at. generalize (JsMap.keys cd) as names.
  induction names as [|n names IH]; intros Hnd; [constructor|].
  apply NoDup_cons in Hnd as [Hn Hnd]. cbn.
  destruct (JsMap.get n cd) as [md|]; cbn; [|auto].
  destruct (head (samples_at t md)) as [dp|]; cbn; [|auto].
  constructor; [|auto].
  intros ([n' dp'] & Heq & Hin)%list_elem_of_fmap. simpl in Heq. subst n'.
  apply list_elem_of_omap in Hin as (n'' & Hn'' & Hsome).
  destruct (JsMap.get n'' cd); [|done]. cbn in Hsome.
  destruct (head _); [|done]. cbn in Hsome. by simplify_eq.
Qed.
End tooltip_facts.

Section component_facts.
Context `{Platform}.

(** The builder never throws. *)
Lemma build_option_spec (cd : list (string * list Sample)) :
  build_option cd
  = Returns
      {| tooltip_trigger := "axis";
         tooltip_formatter := formatter cd (sortedTimestamps cd);
         legend_data := JsMap.keys cd;
         xAxis_type := "category";
         xAxis_data :=
           (λ t, toLocaleString (Some t) ShortDateTime) <$> sortedTimestamps cd;
         yAxis_type := "value";
         option_series :=
           (λ name, make_series (sortedTimestamps cd) name
                      (default [] (JsMap.get name cd))) <$> JsMap.keys cd |}.
Proof. unfold build_option. by rewrite build_series_spec. Qed.

(** The normalizer never throws. *)
Lemma chartData_total (data : option (list DataPoint)) :
  ∃ cd, chartData data = Returns cd.
Proof.
  destruct data as [[|item data]|]; [by eexists..| |by eexists].
  destruct (chartData_spec (item :: data)) as (cd & -> & _); [done|]. by eexists.
Qed.

(** The colour callback reads the series at the index it is given. *)
Lemma color_lookup (metricData : list Sample) (i : nat) :
  color metricData i
  = match metricData !! i with
    | Some dataPoint => status_color (status dataPoint)
    | None => Color "#1890ff"
    end.
Proof. unfold color, status_color. by destruct (metricData !! i). Qed.
End component_facts.

Section pipeline_facts.
Context `{Platform}.
Implicit Types (cd : list (string * list Sample)).

(** The formatter on the parameters of an axis tooltip. *)
Lemma formatter_axis cd T mark i t (names : list string) :
  names ≠ [] →
  T !! i = Some t →
  (∀ name, name ∈ names → name ∈ JsMap.keys cd) →
  formatter cd T (ParamArray (axis_params mark i names))
  = Returns (foldl String.append (toLocaleString (Some t) FullDateTime +:+ "<br/>")
      (omap (λ name, metricData ← JsMap.get name cd;
                     dataPoint ← head (samples_at t metricData);
                     Some (tooltip_line
                             {| seriesName := name; marker := mark name;
                                dataIndex := i |} dataPoint))
            names)).
Proof.
  intros Hne Hi Hin. destruct names as [|n names]; [done|].
  unfold formatter. cbn [axis_params fmap list_fmap dataIndex]. rewrite Hi.
  by apply (forEach_tooltip_step cd t mark i (n :: names)).
Qed.

(** One render and its effect, by cases on what the normalizer returned. *)
Lemma LineChart_cases (ref : option ECharts) (data : option (list DataPoint))
    (height : option Z) :
  ∃ r, chartData data = Returns r
    ∧ ((match r with Some m => m = [] | None => True end)
       ∧ LineChart ref data height
         = Returns (ref, NoDataPlaceholder (default 400%Z height), None)
       ∨ ∃ m opt, r = Some m ∧ m ≠ []
           ∧ build_option m = Returns opt
           ∧ LineChart ref data height
             = Returns (Some {| current_option := Some opt |},
                        ChartContainer (default 400%Z height), Some opt)).
Proof.
  destruct (chartData_total data) as [r Hcd]. exists r. split; [done|].
  unfold LineChart. rewrite Hcd. cbn [mbind outcome_bind].
  destruct r as [[|e m]|]; cbn [view chartRef_current effect]; [by left| |by left].
  right. exists (e :: m). eexists. split_and!; [done|done|apply build_option_spec|].
  rewrite decide_False by done. cbn [chartRef_current effect].
  by rewrite build_option_spec.
Qed.

(** The series of a mapping that came out of the normalizer. *)
Lemma chartData_series (items : list DataPoint) cd name metricData :
  chartData (Some items) = Returns (Some cd) →
  JsMap.get name cd = Some metricData →
  metricData = JsArray.sort by_timestamp (readings_of name items)
  ∧ readings_of name items ≠ [].
Proof.
  intros Hcd Hget. destruct items as [|item items]; [done|].
  destruct (chartData_spec (item :: items)) as (cd' & Hcd' & _ & Hspec); [done|].
  rewrite Hcd in Hcd'. simplify_eq. rewrite Hspec, pushed_None in Hget.
  case_decide; simplify_eq/=. done.
Qed.
End pipeline_facts.

(** * The properties of the specification *)

Section specification.
Context `{Platform}.
Implicit Types (cd : list (string * list Sample)).

(** C2. In the option built from any mapping, the series of a metric has
    one data entry per position of the unified timeline.  The entry at a
    position is [null] when the metric has no sample with exactly that
    timestamp, and otherwise the parsed value of a sample of the metric with
    exactly that timestamp (the last one in the series); no entry is taken
    from another timestamp. *)
Theorem aligned_data_exact cd name (metricData : list Sample) :
  JsMap.get name cd = Some metricData →
  ∃ opt s,
    build_option cd = Returns opt
    ∧ series_name <$> option_series opt = JsMap.keys cd
    ∧ s ∈ option_series opt
    ∧ series_name s = name
    ∧ length (series_data s) = length (sortedTimestamps cd)
    ∧ ∀ i t, sortedTimestamps cd !! i = Some t →
        (samples_at t metricData = [] → series_data s !! i = Some None)
        ∧ (∀ dataPoint, last (samples_at t metricData) = Some dataPoint →
             dataPoint ∈ metricData ∧ timestamp dataPoint = t
             ∧ series_data s !! i = Some (Some (value dataPoint))).
Proof.
  intros Hget. eexists. exists (make_series (sortedTimestamps cd) name metricData).
  split; [apply build_option_spec|]. cbn [option_series].
  split_and!.
  - rewrite <-list_fmap_compose. apply list_fmap_id.
  - apply list_elem_of_fmap. exists name. rewrite Hget. split; [done|].
    apply get_is_Some. eauto.
  - done.
  - apply length_aligned_data.
  - intros i t Hi. cbn [series_data make_series].
    rewrite (lookup_aligned_data _ _ _ _ Hi). split.
    + by intros ->.
    + intros dp Hdp. rewrite Hdp.
      apply last_Some_elem_of, list_elem_of_filter in Hdp as [? ?]. done.
Qed.

(** C3. The unified timeline of any mapping is strictly increasing (sorted
    ascending, no timestamp twice), holds exactly the timestamps of the
    samples of the mapping, has as many entries as there are distinct
    timestamps, at most the sum of the lengths of the series, and is what
    the category axis of the built option is labelled with. *)
Theorem unified_timeline_sorted_distinct cd :
  StronglySorted Z.lt (sortedTimestamps cd)
  ∧ (∀ t, t ∈ sortedTimestamps cd
          ↔ ∃ name metricData s,
              (name, metricData) ∈ cd ∧ s ∈ metricData ∧ timestamp s = t)
  ∧ length (sortedTimestamps cd) = length (remove_dups (every_timestamp cd))
  ∧ length (sortedTimestamps cd) ≤ sum_list ((λ e, length e.2) <$> cd)
  ∧ ∃ opt, build_option cd = Returns opt
           ∧ xAxis_data opt
             = (λ t, toLocaleString (Some t) ShortDateTime) <$> sortedTimestamps cd.
Proof.
  split_and!.
  - apply sortedTimestamps_lt.
  - intros t. by rewrite elem_of_sortedTimestamps, elem_of_every_timestamp.
  - apply length_sortedTimestamps.
  - apply length_sortedTimestamps_le.
  - eexists. split; [apply build_option_spec|done].
Qed.

(** C4. On a non-empty sequence of records (objects, so with pairwise
    distinct property names) the normalizer returns a mapping whose keys are
    exactly the names, other than [category], under which some record holds
    a reading object; the series of a metric has as many samples as there
    are records that contribute a reading for it.  Numbers and [null] under
    other keys leave no trace. *)
Theorem normalizer_names_and_counts (data : list DataPoint) :
  data ≠ [] →
  Forall well_formed data →
  ∃ cd, chartData (Some data) = Returns (Some cd)
    ∧ NoDup (JsMap.keys cd)
    ∧ (∀ name, name ∈ JsMap.keys cd
               ↔ name ≠ "category"
                 ∧ ∃ item r, item ∈ data ∧ (name, PReading r) ∈ item)
    ∧ ∀ name metricData, JsMap.get name cd = Some metricData →
        length metricData = length (filter (λ item, contributes name item) data).
Proof.
  intros Hne Hwf. destruct (chartData_spec data Hne) as (cd & Hcd & Hnd & Hget).
  exists cd. split_and!; [done..| |].
  - intros name. rewrite <-get_is_Some, Hget, pushed_None, <-readings_of_nonempty.
    case_decide as Hnil; simpl.
    + split; [by intros [? ?]|done].
    + split; [done|by eexists].
  - intros name md Hmd.
    apply (chartData_series data cd) in Hmd as [-> _]; [|done].
    by rewrite sort_length, length_readings_of.
Qed.

(** C5. The normalizer keeps every reading: the sample of a reading under
    a key other than [category] is in the series of that key, which the
    mapping has.  Every series of the mapping is sorted non-decreasing by
    timestamp and is a rearrangement of the readings of its metric in which
    the samples that share a timestamp are all kept and stand in their
    order of arrival. *)
Theorem series_sorted_stable (data : list DataPoint) :
  data ≠ [] →
  ∃ cd, chartData (Some data) = Returns (Some cd)
    ∧ (∀ item name r,
         item ∈ data → (name, PReading r) ∈ item → name ≠ "category" →
         ∃ metricData, JsMap.get name cd = Some metricData
                       ∧ sample_of r ∈ metricData)
    ∧ ∀ name metricData, JsMap.get name cd = Some metricData →
        StronglySorted (λ a b, (timestamp a ≤ timestamp b)%Z) metricData
        ∧ metricData ≡ₚ readings_of name data
        ∧ ∀ t, samples_at t metricData = samples_at t (readings_of name data).
Proof.
  intros Hne. destruct (chartData_spec data Hne) as (cd & Hcd & _ & Hget).
  exists cd. split; [done|]. split.
  - intros item name r Hitem Hr Hcat.
    assert (sample_of r ∈ readings_of name data) as Hin
      by (apply elem_of_readings_of; eauto 6).
    exists (JsArray.sort by_timestamp (readings_of name data)). split.
    + rewrite Hget, pushed_None, decide_False; [done|].
      intros Hnil. rewrite Hnil in Hin. by apply elem_of_nil in Hin.
    + by apply elem_of_sort.
  - intros name md Hmd.
    apply (chartData_series data cd) in Hmd as [-> _]; [|done].
    split_and!.
    + apply (sort_Sorted by_timestamp timestamp by_timestamp_key).
    + apply sort_Permutation.
    + intros t. apply (sort_stable by_timestamp timestamp by_timestamp_key).
Qed.

(** C6. At a position of the unified timeline, the formatter of the built
    option, given the axis parameters (one per series), returns the
    formatted date and time followed by one line for each metric that has a
    sample with exactly that timestamp, in series order, and nothing for
    the other metrics; a line shows the name of the metric and the value and
    status of a sample of that metric at that timestamp. *)
Theorem tooltip_one_line_per_sampled_metric cd i t (mark : string → string) :
  sortedTimestamps cd !! i = Some t →
  ∃ opt,
    build_option cd = Returns opt
    ∧ tooltip_formatter opt (ParamArray (axis_params mark i (legend_data opt)))
      = Returns
          (foldl String.append (toLocaleString (Some t) FullDateTime +:+ "<br/>")
             ((λ nd, tooltip_line {| seriesName := nd.1; marker := mark nd.1;
                                     dataIndex := i |} nd.2)
                <$> metrics_at cd t))
    ∧ (∀ name, name ∈ (metrics_at cd t).*1
               ↔ ∃ metricData s, JsMap.get name cd = Some metricData
                                 ∧ s ∈ metricData ∧ timestamp s = t)
    ∧ (NoDup (JsMap.keys cd) → NoDup (metrics_at cd t).*1)
    ∧ ∀ name dataPoint, (name, dataPoint) ∈ metrics_at cd t →
        ∃ metricData, JsMap.get name cd = Some metricData
                      ∧ dataPoint ∈ metricData ∧ timestamp dataPoint = t.
Proof.
  intros Hi. eexists. split; [apply build_option_spec|].
  cbn [tooltip_formatter legend_data]. split_and!.
  - assert (JsMap.keys cd ≠ []) as Hne.
    { assert (t ∈ sortedTimestamps cd) as Ht by (by eapply list_elem_of_lookup_2).
      apply elem_of_sortedTimestamps, elem_of_every_timestamp in Ht
        as (name & md & _ & Hin & _).
      intros Hnil. destruct cd; [by apply elem_of_nil in Hin|done]. }
    rewrite (formatter_axis cd _ mark i t) by done.
    by rewrite (omap_fmap_metrics cd t
      (λ name dp, tooltip_line {| seriesName := name; marker := mark name;
                                  dataIndex := i |} dp)).
  - apply metrics_at_names.
  - apply NoDup_metrics_at.
  - intros name dp (md & Hmd & Hhd)%elem_of_metrics_at. exists md.
    apply head_Some_elem_of, list_elem_of_filter in Hhd as [? ?]. done.
Qed.

(** C7. When [data] is absent or empty the normalizer returns [null], the
    component shows the placeholder, the effect builds no option and leaves
    the chart instance alone, and nothing is thrown. *)
Theorem empty_input_no_data (ref : option ECharts) (height : option Z) :
  chartData None = Returns None
  ∧ chartData (Some []) = Returns None
  ∧ LineChart ref None height
    = Returns (ref, NoDataPlaceholder (default 400%Z height), None)
  ∧ LineChart ref (Some []) height
    = Returns (ref, NoDataPlaceholder (default 400%Z height), None).
Proof. done. Qed.

(** C8. A render with its effect always returns, whatever the records, and
    the formatter of the option it built returns on any parameters that
    name series of the chart.  The unified timeline holds exactly the
    timestamps of the readings, whatever their values, and a cell of an
    aligned data array depends only on the readings of its own metric at its
    own timestamp: it is the value of the last of them, so a reading whose
    value parses to NaN puts NaN in its own cell and changes no other. *)
Theorem pipeline_total_nan_confined (ref : option ECharts)
    (data : option (list DataPoint)) (height : option Z) :
  (∃ ref1 v o,
      LineChart ref data height = Returns (ref1, v, o)
      ∧ ∀ opt params, o = Some opt →
          Forall (λ p, seriesName p ∈ legend_data opt) (params_of params) →
          ∃ text, tooltip_formatter opt params = Returns text)
  ∧ ∀ items cd,
      data = Some items →
      chartData data = Returns (Some cd) →
      (∀ t, t ∈ sortedTimestamps cd
            ↔ ∃ item name r, item ∈ items ∧ (name, PReading r) ∈ item
                             ∧ name ≠ "category" ∧ reading_timestamp r = t)
      ∧ ∀ name metricData i t,
          JsMap.get name cd = Some metricData →
          sortedTimestamps cd !! i = Some t →
          aligned_data (sortedTimestamps cd) metricData !! i
          = Some (value <$> last (samples_at t (readings_of name items)))
          ∧ ∀ r, last (samples_at t (readings_of name items)) = Some (sample_of r) →
                 parseFloat (reading_value r) = S754_nan →
                 aligned_data (sortedTimestamps cd) metricData !! i
                 = Some (Some S754_nan).
Proof.
  split.
  - destruct (LineChart_cases ref data height)
      as (r & _ & [[_ ->]|(m & opt & _ & _ & Hopt & ->)]).
    + do 3 eexists. split; [done|]. by intros opt params [=].
    + do 3 eexists. split; [done|]. intros opt' params [= <-].
      rewrite build_option_spec in Hopt. injection Hopt as <-.
      cbn [legend_data tooltip_formatter]. apply formatter_total.
  - intros items cd -> Hcd. split.
    + intros t. rewrite elem_of_sortedTimestamps, elem_of_every_timestamp. split.
      * intros (name & md & s & Hin & Hs & <-).
        assert (JsMap.get name cd = Some md) as Hget.
        { destruct items as [|item items]; [done|].
          destruct (chartData_spec (item :: items)) as (cd' & Hcd' & Hnd & _);
            [done|].
          rewrite Hcd in Hcd'. simplify_eq. by apply get_NoDup. }
        apply (chartData_series items cd) in Hget as [-> _]; [|done].
        apply elem_of_sort, elem_of_readings_of in Hs
          as (Hcat & item & r & Hitem & Hr & ->).
        by exists item, name, r.
      * intros (item & name & r & Hitem & Hr & Hcat & <-).
        assert (sample_of r ∈ readings_of name items) as Hs
          by (apply elem_of_readings_of; eauto 6).
        destruct items as [|item0 items]; [done|].
        destruct (chartData_spec (item0 :: items)) as (cd' & Hcd' & _ & Hspec);
          [done|].
        rewrite Hcd in Hcd'. simplify_eq.
        specialize (Hspec name). rewrite pushed_None in Hspec.
        case_decide as Hnil; [by rewrite Hnil in Hs; apply elem_of_nil in Hs|].
        exists name, (JsArray.sort by_timestamp (readings_of name (item0 :: items))),
          (sample_of r).
        split_and!; [by apply get_Some_elem_of|by apply elem_of_sort|done].
    + intros name md i t Hget Hi.
      apply (chartData_series items cd) in Hget as [-> _]; [|done].
      rewrite (lookup_aligned_data _ _ _ _ Hi).
      assert (samples_at t (JsArray.sort by_timestamp (readings_of name items))
              = samples_at t (readings_of name items)) as ->
        by apply (sort_stable by_timestamp timestamp by_timestamp_key).
      split; [done|]. intros r -> Hnan. simpl. by rewrite Hnan.
Qed.

(** C9. What the normalizer returns, what a render shows and the option its
    effect builds are determined by the input alone: the chart instance held
    from earlier renders has no part in them, and a second render on the
    same input gives the same mapping, the same view and the same option as
    the first. *)
Theorem pipeline_deterministic (ref ref' : option ECharts)
    (data : option (list DataPoint)) (height : option Z) :
  ∃ r ref1 v o,
    chartData data = Returns r
    ∧ LineChart ref data height = Returns (ref1, v, o)
    ∧ (∃ ref2, LineChart ref1 data height = Returns (ref2, v, o))
    ∧ (∃ ref3, LineChart ref' data height = Returns (ref3, v, o)).
Proof.
  destruct (LineChart_cases ref data height)
    as (r & Hr & [[Hempty Href]|(m & opt & -> & Hm & Hopt & Href)]).
  - exists r, ref, (NoDataPlaceholder (default 400%Z height)), None.
    split_and!; [done..| |].
    + by exists ref.
    + destruct (LineChart_cases ref' data height)
        as (r' & Hr' & [[_ ->]|(m & opt & -> & Hm & _)]); [by eexists|].
      rewrite Hr in Hr'. by simplify_eq.
  - eexists (Some m), _, _, _. split_and!; [done..| |].
    + destruct (LineChart_cases (Some {| current_option := Some opt |}) data height)
        as (r' & Hr' & [[Hempty _]|(m' & opt' & -> & _ & Hopt' & ->)]).
      * rewrite Hr in Hr'. by simplify_eq.
      * rewrite Hr in Hr'. simplify_eq. rewrite Hopt in Hopt'. simplify_eq.
        by eexists.
    + destruct (LineChart_cases ref' data height)
        as (r' & Hr' & [[Hempty _]|(m' & opt' & -> & _ & Hopt' & ->)]).
      * rewrite Hr in Hr'. by simplify_eq.
      * rewrite Hr in Hr'. simplify_eq. rewrite Hopt in Hopt'. simplify_eq.
        by eexists.
Qed.

(** C10. When a metric has one or several samples with the timestamp [t],
    the unified timeline has exactly one position for [t]; the aligned data
    array of the metric holds there the value of the last of these samples
    in the series, while the tooltip of that position, asked for this
    metric, is the formatted date followed by one line made of the marker,
    the name of the metric, and the value and the status of the first of
    these samples. *)
Theorem duplicate_timestamp_last_vs_first cd name (metricData : list Sample)
    (t : Z) (mark : string → string) :
  JsMap.get name cd = Some metricData →
  samples_at t metricData ≠ [] →
  ∃ i first_ last_,
    head (samples_at t metricData) = Some first_
    ∧ last (samples_at t metricData) = Some last_
    ∧ (∀ j, sortedTimestamps cd !! j = Some t ↔ j = i)
    ∧ aligned_data (sortedTimestamps cd) metricData !! i
      = Some (Some (value last_))
    ∧ formatter cd (sortedTimestamps cd) (ParamArray (axis_params mark i [name]))
      = Returns ((toLocaleString (Some t) FullDateTime +:+ "<br/>")
                 +:+ (mark name +:+ " " +:+ name +:+ ": "
                      +:+ numberToString (value first_)
                      +:+ " (" +:+ status first_ +:+ ")<br/>")).
Proof.
  intros Hget Hne.
  destruct (head (samples_at t metricData)) as [first_|] eqn:Hhd;
    [|by apply head_None in Hhd].
  destruct (last (samples_at t metricData)) as [last_|] eqn:Hlast;
    [|by apply last_None in Hlast].
  assert (t ∈ sortedTimestamps cd) as [i Hi]%list_elem_of_lookup_1.
  { apply elem_of_sortedTimestamps, elem_of_every_timestamp.
    apply head_Some_elem_of, list_elem_of_filter in Hhd as [? ?].
    exists name, metricData, first_. split_and!; [|done..].
    by apply get_Some_elem_of. }
  exists i, first_, last_. split_and!; [done..| | |].
  - intros j. split; [|by intros ->].
    intros Hj. eapply NoDup_position; [apply NoDup_sortedTimestamps|done..].
  - by rewrite (lookup_aligned_data _ _ _ _ Hi), Hlast.
  - rewrite (formatter_axis cd _ mark i t) by
      (try done; intros ? ->%list_elem_of_singleton; apply get_is_Some; eauto).
    cbn. rewrite Hget. cbn. by rewrite Hhd.
Qed.
End specification.

(** * The colour callback *)

(** The colours of the table, and the default for a status that is neither
    in the table nor the name of an inherited member. *)
Lemma status_color_table (s : string) :
  status_color "GOOD" = Color "#52c41a"
  ∧ status_color "WARNING" = Color "#faad14"
  ∧ status_color "ERROR" = Color "#f5222d"
  ∧ (s ∉ ["GOOD"; "WARNING"; "ERROR"] → s ∉ object_prototype_members →
     status_color s = Color "#1890ff").
Proof.
  split_and!; [done..|]. intros Hs Hp.
  rewrite !not_elem_of_cons in Hs. destruct Hs as (? & ? & ? & _).
  unfold status_color, statusColors. by rewrite !decide_False.
Qed.

(** A status that names a member of [Object.prototype] finds that member. *)
Lemma status_color_inherited : status_color "constructor" = Inherited "constructor".
Proof. done. Qed.

(** The callback colours position [i] right when the series has a sample
    for each of the timeline's positions up to [i], one apiece. *)
Lemma color_aligned (T : list Z) (metricData : list Sample) (i : nat) (t : Z) :
  take (S i) (timestamp <$> metricData) = take (S i) T →
  T !! i = Some t →
  ∃ dataPoint, metricData !! i = Some dataPoint
               ∧ timestamp dataPoint = t
               ∧ color metricData i = status_color (status dataPoint).
Proof.
  intros Htake Hi.
  assert ((timestamp <$> metricData) !! i = Some t) as Hlk.
  { rewrite <-(lookup_take_lt _ (S i)) by lia. rewrite Htake.
    by rewrite lookup_take_lt by lia. }
  rewrite list_lookup_fmap in Hlk.
  destruct (metricData !! i) as [dp|] eqn:Hdp; simplify_eq/=.
  exists dp. split_and!; [done..|]. by rewrite color_lookup, Hdp.
Qed.

(** C1. On two records where [cpu] first appears at the second timestamp,
    the series of [cpu] is aligned as [null, 2] and its one sample has the
    status ERROR; the colour callback, asked for position 1 where that
    sample is drawn, indexes the series itself, finds nothing and answers
    the default colour instead of the colour of ERROR, and asked for
    position 0, where nothing is drawn, answers the colour of ERROR. *)
Theorem color_reads_series_index :
  ∃ opt s,
    LineChart (H:=Reference.platform) None (Some Reference.late_metric) None
    = Returns (Some {| current_option := Some opt |}, ChartContainer 400, Some opt)
    ∧ option_series opt !! 1 = Some s
    ∧ series_name s = "cpu"
    ∧ series_data s = [None; Some (Reference.num 2)]
    ∧ JsMap.get "cpu" (Reference.normalized Reference.late_metric)
      = Some [ {| timestamp := 2000; value := Reference.num 2; status := "ERROR" |} ]
    ∧ itemStyle_color s 1 = Color "#1890ff"
    ∧ status_color "ERROR" = Color "#f5222d"
    ∧ itemStyle_color s 0 = Color "#f5222d".
Proof.
  destruct (LineChart_cases (H:=Reference.platform) None
              (Some Reference.late_metric) None)
    as (r & Hr & [[Hempty _]|(m & opt & -> & _ & Hopt & ->)]).
  { vm_compute in Hr. by simplify_eq. }
  vm_compute in Hr. simplify_eq.
  rewrite build_option_spec in Hopt. simplify_eq.
  do 2 eexists. split; [done|]. cbn [option_series].
  split; [by vm_compute|]. by vm_compute.
Qed.

(** * The statements at concrete inputs *)

(** C2 at scenario 2: [mem] has no sample at 2000, so the second entry of
    its data array is [null]. *)
Lemma aligned_data_exact_witness :
  ∃ opt s,
    build_option (H:=Reference.platform) (Reference.normalized Reference.scenario2)
    = Returns opt
    ∧ s ∈ option_series opt
    ∧ series_name s = "mem"
    ∧ length (series_data s) = 2
    ∧ series_data s !! 0 = Some (Some (Reference.num 7))
    ∧ series_data s !! 1 = Some None.
Proof.
  destruct (aligned_data_exact (H:=Reference.platform)
              (Reference.normalized Reference.scenario2) "mem"
              [ {| timestamp := 1000; value := Reference.num 7;
                   status := "WARNING" |} ])
    as (opt & s & Hopt & _ & Hs & Hname & Hlen & Hcell); [by vm_compute|].
  exists opt, s. split_and!; [done..| | |].
  - by rewrite Hlen.
  - destruct (Hcell 0 1000%Z) as [_ Hvalue]; [by vm_compute|].
    destruct (Hvalue {| timestamp := 1000; value := Reference.num 7;
                        status := "WARNING" |}) as (_ & _ & ->); by vm_compute.
  - destruct (Hcell 1 2000%Z) as [Hgap _]; [by vm_compute|].
    apply Hgap. by vm_compute.
Defined.

(** C4 on three records: two metrics, [cpu] with three samples; the
    number under [load] is skipped. *)
Lemma normalizer_names_and_counts_witness :
  ∃ cd, chartData (H:=Reference.platform) (Some Reference.repeated)
        = Returns (Some cd)
    ∧ JsMap.keys cd = ["cpu"; "mem"]
    ∧ ("load" ∈ JsMap.keys cd
       ↔ "load" ≠ "category"
         ∧ ∃ item r, item ∈ Reference.repeated ∧ ("load", PReading r) ∈ item)
    ∧ ∀ metricData, JsMap.get "cpu" cd = Some metricData → length metricData = 3.
Proof.
  destruct (normalizer_names_and_counts (H:=Reference.platform) Reference.repeated)
    as (cd & Hcd & _ & Hnames & Hcount).
  - done.
  - apply (bool_decide_unpack _). by vm_compute.
  - exists cd. split; [done|]. split_and!.
    + vm_compute in Hcd. by simplify_eq.
    + apply Hnames.
    + intros md Hmd. by rewrite (Hcount "cpu" md Hmd).
Defined.

(** C6 on three records, at the position of 1000: a line for [cpu] and a
    line for [mem]. *)
Lemma tooltip_one_line_per_sampled_metric_witness :
  ∃ opt,
    build_option (H:=Reference.platform) (Reference.normalized Reference.repeated)
    = Returns opt
    ∧ tooltip_formatter opt
        (ParamArray (axis_params (λ _, "*") 1 (legend_data opt)))
      = Returns "full:1000<br/>* cpu: 5 (GOOD)<br/>* mem: NaN (GOOD)<br/>".
Proof.
  destruct (tooltip_one_line_per_sampled_metric (H:=Reference.platform)
              (Reference.normalized Reference.repeated) 1 1000%Z (λ _, "*"))
    as (opt & Hopt & Htext & _); [by vm_compute|].
  exists opt. split; [done|]. rewrite Htext. by vm_compute.
Defined.

(** C8 on three records: the unparseable value of [mem] is NaN in the cell
    of [mem] at 1000. *)
Lemma pipeline_total_nan_confined_witness :
  aligned_data (sortedTimestamps (Reference.normalized Reference.repeated))
    [ {| timestamp := 1000; value := S754_nan; status := "GOOD" |} ] !! 1
  = Some (Some S754_nan).
Proof.
  destruct (pipeline_total_nan_confined (H:=Reference.platform) None
              (Some Reference.repeated) None) as [_ Hcell].
  destruct (Hcell Reference.repeated (Reference.normalized Reference.repeated)
              eq_refl) as [_ Hmem]; [by vm_compute|].
  refine (proj2 (Hmem "mem"
                   [ {| timestamp := 1000; value := S754_nan; status := "GOOD" |} ]
                   1 1000%Z _ _)
                {| reading_value := "abc"; reading_timestamp := 1000;
                   reading_status := "GOOD" |} _ _);
    by vm_compute.
Defined.

(** C10 on three records: [cpu] has two samples at 1000, with the values 5
    and 6 in this order; the data array holds 6 and the tooltip shows 5. *)
Lemma duplicate_timestamp_last_vs_first_witness :
  ∃ i,
    aligned_data (sortedTimestamps (Reference.normalized Reference.repeated))
      (JsArray.sort by_timestamp
         (readings_of (H:=Reference.platform) "cpu" Reference.repeated)) !! i
    = Some (Some (Reference.num 6))
    ∧ formatter (H:=Reference.platform) (Reference.normalized Reference.repeated)
        (sortedTimestamps (Reference.normalized Reference.repeated))
        (ParamArray (axis_params (λ _, "*") i ["cpu"]))
      = Returns "full:1000<br/>* cpu: 5 (GOOD)<br/>".
Proof.
  destruct (duplicate_timestamp_last_vs_first (H:=Reference.platform)
              (Reference.normalized Reference.repeated) "cpu"
              (JsArray.sort by_timestamp
                 (readings_of (H:=Reference.platform) "cpu" Reference.repeated))
              1000%Z (λ _, "*"))
    as (i & first_ & last_ & Hfirst & Hlast & _ & Hdata & Htext).
  - by vm_compute.
  - by vm_compute.
  - exists i. vm_compute in Hfirst, Hlast. simplify_eq.
    rewrite Hdata, Htext. split; by vm_compute.
Defined.

(** * The scenarios of the specification, run on the reference platform *)

(** Scenario 1: one metric, one sample, one tooltip line. *)
Example scenario1_runs :
  Reference.normalized Reference.scenario1
  = [("cpu", [ {| timestamp := 1000; value := Reference.num 10; status := "GOOD" |} ])]
  ∧ sortedTimestamps (Reference.normalized Reference.scenario1) = [1000%Z]
  ∧ formatter (H:=Reference.platform) (Reference.normalized Reference.scenario1)
      [1000%Z] (ParamArray (axis_params (λ _, "*") 0 ["cpu"]))
    = Returns "full:1000<br/>* cpu: 10 (GOOD)<br/>".
Proof. by vm_compute. Qed.

(** Scenario 2: [mem] has a gap at the second position. *)
Example scenario2_runs :
  sortedTimestamps (Reference.normalized Reference.scenario2) = [1000%Z; 2000%Z]
  ∧ (λ e, (e.1, aligned_data [1000%Z; 2000%Z] e.2))
      <$> Reference.normalized Reference.scenario2
    = [ ("cpu", [Some (Reference.num 10); Some (Reference.num 20)]);
        ("mem", [Some (Reference.num 7); None]) ].
Proof. by vm_compute. Qed.

(** Scenario 3: an unparseable value is NaN in its own cell. *)
Example scenario3_runs :
  (λ e, (e.1, aligned_data [500%Z; 1000%Z] e.2))
    <$> Reference.normalized Reference.repeated
  = [ ("cpu", [Some (Reference.num 4); Some (Reference.num 6)]);
      ("mem", [None; Some S754_nan]) ].
Proof. by vm_compute. Qed.

(** Scenario 4: a status outside the table gets the default colour. *)
Example scenario4_runs :
  color [ {| timestamp := 1000; value := Reference.num 1;
             status := "UNKNOWN_STATUS" |} ] 0
  = Color "#1890ff".
Proof. by vm_compute. Qed.

(** Scenario 5: an empty array gives the placeholder and no option. *)
Example scenario5_runs :
  LineChart (H:=Reference.platform) None (Some []) None
  = Returns (None, NoDataPlaceholder 400, None).
Proof. by vm_compute. Qed.

(** * Further properties of the normalizer *)

Section filter_facts.
Context {A : Type}.

Lemma filter_all (P : A → Prop) `{!∀ x, Decision (P x)} (l : list A) :
  (∀ x, x ∈ l → P x) → filter P l = l.
Proof.
  induction l as [|x l IH]; intros HP; [done|].
  rewrite filter_cons_True by (apply HP; left).
  f_equal. apply IH. intros y Hy. apply HP. by right.
Qed.

Lemma length_filter_fmap {B : Type} (f : A → B) (P : B → Prop)
    `{!∀ x, Decision (P x)} (l : list A) :
  length (filter P (f <$> l)) = length (filter (λ x, P (f x)) l).
Proof.
  induction l as [|x l IH]; [done|].
  rewrite fmap_cons, !filter_cons. case_decide; simpl; by rewrite IH.
Qed.
End filter_facts.

Section first_occurrences_facts.
Implicit Types (l : list string).

Lemma elem_of_first_occurrences x l : x ∈ first_occurrences l ↔ x ∈ l.
Proof.
  induction l as [|y l IH]; [done|]. simpl.
  rewrite !elem_of_cons, list_elem_of_filter, IH.
  destruct (decide (x = y)); tauto.
Qed.

Lemma NoDup_first_occurrences l : NoDup (first_occurrences l).
Proof.
  induction l as [|y l IH]; simpl; [constructor|].
  constructor; [|by apply NoDup_filter].
  by intros [? _]%list_elem_of_filter.
Qed.

Lemma first_occurrences_app l k :
  first_occurrences (l ++ k)
  = first_occurrences l ++ filter (λ x, x ∉ l) (first_occurrences k).
Proof.
  induction l as [|y l IH]; simpl.
  - symmetry. apply filter_all. intros x _. apply not_elem_of_nil.
  - f_equal. rewrite IH, filter_app. f_equal.
    rewrite list_filter_filter. apply list_filter_iff.
    intros x. rewrite not_elem_of_cons. tauto.
Qed.

(** A duplicate-free list is its own list of first occurrences. *)
Lemma first_occurrences_NoDup l : NoDup l → first_occurrences l = l.
Proof.
  induction 1 as [|y l Hy Hl IH]; simpl; [done|].
  rewrite IH. f_equal. apply filter_all. by intros x Hx ->.
Qed.
End first_occurrences_facts.

Section normalizer_more.
Context `{Platform}.
Implicit Types (m : list (string * list Sample)).

Lemma forEachM_bind {A B S : Type} (f : S → B → outcome S) (g : A → list B)
    (l : list A) (s : S) :
  forEachM (λ s x, forEachM f (g x) s) l s = forEachM f (l ≫= g) s.
Proof.
  revert s. induction l as [|x l IH]; intros s; [done|].
  rewrite bind_cons, forEachM_app. cbn [forEachM].
  destruct (forEachM f (g x) s); cbn; [apply IH|done].
Qed.

Lemma observe_skips m (e : string * PropertyValue) :
  is_reading_object e.2 = false → observe m e = Returns m.
Proof. destruct e as [k [| |r]]; simpl; done. Qed.

(** What one step of the inner loop does to the keys and to the number of
    samples. *)
Lemma observe_reading m k r :
  ∃ m', observe m (k, PReading r) = Returns m'
        ∧ JsMap.keys m' = JsMap.keys m ++ filter (λ x, x ∉ JsMap.keys m) [k]
        ∧ total_samples m' = S (total_samples m).
Proof.
  assert (∀ (v : list Sample) m0,
    total_samples (JsMap.set k v m0) + length (default [] (JsMap.get k m0))
    = total_samples m0 + length v) as Htotal.
  { intros v m0. unfold total_samples.
    induction m0 as [|[k0 v0] m0 IH]; csimpl; [lia|].
    case_decide; csimpl in *; lia. }
  unfold observe, is_reading_object; simpl. unfold JsMap.has.
  destruct (JsMap.get k m) as [values|] eqn:Hk.
  - rewrite Hk. eexists. split_and!; [done| |].
    + rewrite keys_set. unfold JsMap.has. rewrite Hk.
      rewrite filter_cons_False, filter_nil, app_nil_r; [done|].
      intros Hnot. apply Hnot, get_is_Some. eauto.
    + pose proof (Htotal (values ++ [sample_of r]) m) as Ht.
      rewrite Hk, length_app in Ht. simpl in Ht. lia.
  - rewrite get_set, decide_True by done. eexists. split_and!; [done| |].
    + rewrite !keys_set. unfold JsMap.has. rewrite get_set, decide_True, Hk by done.
      rewrite filter_cons_True, filter_nil; [done|]. by apply get_None.
    + pose proof (Htotal ([] ++ [sample_of r]) (JsMap.set k [] m)) as Ht.
      pose proof (Htotal [] m) as Ht0.
      rewrite get_set, decide_True in Ht by done.
      rewrite Hk in Ht0. simpl in Ht, Ht0. simpl. lia.
Qed.

Lemma forEach_observe_keys (es : list (string * PropertyValue)) m :
  ∃ m', forEachM observe es m = Returns m'
        ∧ JsMap.keys m'
          = JsMap.keys m
            ++ filter (λ x, x ∉ JsMap.keys m)
                 (first_occurrences
                    (fst <$> filter (λ e, is_reading_object e.2) es))
        ∧ total_samples m'
          = total_samples m + length (filter (λ e, is_reading_object e.2) es).
Proof.
  revert m. induction es as [|[k v] es IH]; intros m.
  { exists m. split_and!; [done| |simpl; lia]. simpl. by rewrite app_nil_r. }
  rewrite filter_cons. cbn [forEachM snd].
  destruct (is_reading_object v) eqn:Hv.
  - rewrite decide_True by done. destruct v as [| |r]; try done.
    destruct (observe_reading m k r) as (m1 & -> & Hkeys1 & Htotal1).
    destruct (IH m1) as (m2 & Hm2 & Hkeys2 & Htotal2).
    exists m2. split_and!; [done| |].
    + rewrite Hkeys2, Hkeys1. cbn [fmap list_fmap first_occurrences fst].
      rewrite (filter_cons _ k (filter _ _)), (filter_cons _ k []), filter_nil.
      destruct (decide (k ∉ JsMap.keys m)) as [Hk|Hk].
      * rewrite <-(assoc_L (++)). simpl. do 2 f_equal.
        rewrite list_filter_filter. apply list_filter_iff.
        intros x. rewrite not_elem_of_app, list_elem_of_singleton. tauto.
      * rewrite app_nil_r, list_filter_filter. f_equal. apply list_filter_iff.
        intros x. apply dec_stable in Hk. split; [|tauto].
        intros Hx. split; [done|]. by intros ->.
    + rewrite Htotal2, Htotal1. simpl. lia.
  - rewrite decide_False by (by intros []).
    rewrite observe_skips by done. cbn. apply IH.
Qed.

Lemma metric_names_entries (data : list DataPoint) :
  metric_names data
  = fst <$> filter (λ e, is_reading_object e.2) (data ≫= metrics_entries).
Proof.
  unfold metric_names, reading_entries.
  induction data as [|item data IH]; [done|].
  by rewrite !bind_cons, filter_app, fmap_app, IH.
Qed.

(** The keys and the size of what the normalizer returns. *)
Lemma chartData_keys (data : list DataPoint) :
  data ≠ [] →
  ∃ cd, chartData (Some data) = Returns (Some cd)
        ∧ JsMap.keys cd = first_occurrences (metric_names data)
        ∧ total_samples cd = length (metric_names data).
Proof.
  intros Hne.
  destruct (forEach_observe_keys (data ≫= metrics_entries) [])
    as (m & Hm & Hkeys & Htotal).
  exists (sort_each m). split_and!.
  - destruct data; [done|]. unfold chartData, collect.
    by rewrite forEachM_bind, Hm.
  - rewrite keys_sort_each, Hkeys, metric_names_entries. simpl.
    apply filter_all. intros x _. apply not_elem_of_nil.
  - rewrite metric_names_entries, length_fmap.
    change (total_samples []) with 0 in Htotal. simpl in Htotal. rewrite <-Htotal.
    unfold total_samples, sort_each. rewrite <-list_fmap_compose.
    f_equal. apply list_fmap_ext. intros i [k v] _. simpl. apply sort_length.
Qed.
End normalizer_more.

(** Two lists sorted by a key that keep, for every key, the same elements
    in the same order are the same list. *)
Section stable_unique.
Context {A : Type} (key : A → Z).

Lemma sorted_stable_unique (l1 l2 : list A) :
  StronglySorted (λ a b, key a ≤ key b)%Z l1 →
  StronglySorted (λ a b, key a ≤ key b)%Z l2 →
  (∀ t, filter (λ a, key a = t) l1 = filter (λ a, key a = t) l2) →
  l1 = l2.
Proof.
  intros Hl1. revert l2.
  induction Hl1 as [|x l1 Hl1 IH Hx]; intros l2 Hl2 Heq.
  - destruct l2 as [|y l2]; [done|].
    specialize (Heq (key y)). by rewrite filter_nil, filter_cons_True in Heq.
  - destruct Hl2 as [|y l2 Hl2 Hy].
    { specialize (Heq (key x)). by rewrite filter_nil, filter_cons_True in Heq. }
    rewrite Forall_forall in Hx, Hy.
    assert (key x = key y) as Hxy.
    { assert (x ∈ y :: l2) as Hxin.
      { pose proof (Heq (key x)) as Hk. rewrite filter_cons_True in Hk by done.
        assert (x ∈ filter (λ a, key a = key x) (y :: l2)) as Hin
          by (rewrite <-Hk; left).
        by apply list_elem_of_filter in Hin as [_ ?]. }
      assert (y ∈ x :: l1) as Hyin.
      { pose proof (Heq (key y)) as Hk.
        rewrite (filter_cons_True _ y) in Hk by done.
        assert (y ∈ filter (λ a, key a = key y) (x :: l1)) as Hin
          by (rewrite Hk; left).
        by apply list_elem_of_filter in Hin as [_ ?]. }
      apply elem_of_cons in Hxin as [?|Hxin]; [by subst|].
      apply elem_of_cons in Hyin as [?|Hyin]; [by subst|].
      specialize (Hx y Hyin). specialize (Hy x Hxin). simpl in *. lia. }
    assert (x = y) as <-.
    { pose proof (Heq (key x)) as Hk.
      rewrite !filter_cons_True in Hk by done. by injection Hk. }
    f_equal. apply IH; [done|]. intros t. specialize (Heq t).
    rewrite !filter_cons in Heq. case_decide; [by injection Heq|done].
Qed.
End stable_unique.

Section sort_more.
Implicit Types (l : list Sample).

Lemma sort_by_timestamp_canonical l l' :
  StronglySorted (λ a b, (timestamp a ≤ timestamp b)%Z) l' →
  (∀ t, samples_at t l' = samples_at t l) →
  l' = JsArray.sort by_timestamp l.
Proof.
  intros Hsorted Hstable. apply (sorted_stable_unique timestamp); [done| |].
  - apply (sort_Sorted by_timestamp timestamp by_timestamp_key).
  - intros t. rewrite (sort_stable by_timestamp timestamp by_timestamp_key).
    apply Hstable.
Qed.

Lemma sort_sort_app l1 l2 :
  JsArray.sort by_timestamp
    (JsArray.sort by_timestamp l1 ++ JsArray.sort by_timestamp l2)
  = JsArray.sort by_timestamp (l1 ++ l2).
Proof.
  symmetry. apply sort_by_timestamp_canonical.
  - apply (sort_Sorted by_timestamp timestamp by_timestamp_key).
  - intros t. unfold samples_at.
    rewrite (sort_stable by_timestamp timestamp by_timestamp_key), !filter_app.
    by rewrite !(sort_stable by_timestamp timestamp by_timestamp_key).
Qed.
End sort_more.

Section normalizer_input.
Context `{Platform}.

Lemma elem_of_metric_names name (data : list DataPoint) :
  name ∈ metric_names data
  ↔ name ≠ "category" ∧ ∃ item r, item ∈ data ∧ (name, PReading r) ∈ item.
Proof.
  unfold metric_names, reading_entries, metrics_entries.
  rewrite list_elem_of_bind. split.
  - intros (item & Hin & Hitem).
    apply list_elem_of_fmap in Hin as ([k v] & -> & Hin).
    apply list_elem_of_filter in Hin as [Hv Hin].
    apply list_elem_of_filter in Hin as [Hk Hin]. simpl in *.
    destruct v as [| |r]; try done. eauto.
  - intros (Hcat & item & r & Hitem & Hr). exists item. split; [|done].
    apply list_elem_of_fmap. exists (name, PReading r). split; [done|].
    apply list_elem_of_filter. split; [done|]. by apply list_elem_of_filter.
Qed.

Lemma length_metric_names (data : list DataPoint) :
  length (metric_names data) = length (data ≫= reading_entries).
Proof.
  unfold metric_names. induction data as [|item data IH]; [done|].
  by rewrite !bind_cons, !length_app, length_fmap, IH.
Qed.

Lemma forEach_observe_readings (es : list (string * PropertyValue))
    (m : list (string * list Sample)) :
  forEachM observe (filter (λ e, is_reading_object e.2) es) m
  = forEachM observe es m.
Proof.
  revert m. induction es as [|e es IH]; intros m; [done|].
  rewrite filter_cons. destruct (is_reading_object e.2) eqn:He.
  - rewrite decide_True by done. cbn [forEachM].
    destruct (observe m e); cbn; [apply IH|done].
  - rewrite decide_False by (by intros []). cbn [forEachM].
    rewrite observe_skips by done. cbn. apply IH.
Qed.

Lemma collect_reading_entries (data : list DataPoint) :
  collect data = forEachM observe (data ≫= reading_entries) [].
Proof.
  unfold collect. rewrite forEachM_bind, <-forEach_observe_readings. f_equal.
  unfold reading_entries. induction data as [|item data IH]; [done|].
  by rewrite !bind_cons, filter_app, IH.
Qed.

(** X1. The normalizer reads nothing but the reading objects under the
    keys other than [category]: two inputs whose records hold the same
    readings, record by record, give the same result, whatever their
    [category] fields and their other properties are. *)
Theorem normalizer_reads_only_readings (data1 data2 : list DataPoint) :
  reading_entries <$> data1 = reading_entries <$> data2 →
  chartData (Some data1) = chartData (Some data2).
Proof.
  intros Heq.
  assert (data1 ≫= reading_entries = data2 ≫= reading_entries) as Hbind.
  { revert data2 Heq. induction data1 as [|i1 d1 IH]; intros [|i2 d2] Heq;
      try done.
    rewrite !fmap_cons in Heq. injection Heq as Hi Hd.
    by rewrite !bind_cons, Hi, (IH d2). }
  destruct data1 as [|i1 d1], data2 as [|i2 d2]; try done.
  unfold chartData. by rewrite !collect_reading_entries, Hbind.
Qed.

(** X2. The keys of the mapping, the legend of the built option and its
    series all list the metrics in the order in which the records first
    mention them, each metric once. *)
Theorem legend_in_first_seen_order (data : list DataPoint) :
  data ≠ [] →
  ∃ cd opt,
    chartData (Some data) = Returns (Some cd)
    ∧ build_option cd = Returns opt
    ∧ JsMap.keys cd = first_occurrences (metric_names data)
    ∧ legend_data opt = first_occurrences (metric_names data)
    ∧ series_name <$> option_series opt = first_occurrences (metric_names data).
Proof.
  intros Hne. destruct (chartData_keys data Hne) as (cd & Hcd & Hkeys & _).
  exists cd. eexists. split_and!; [done|apply build_option_spec|done..|].
  cbn [option_series]. rewrite <-list_fmap_compose, <-Hkeys. apply list_fmap_id.
Qed.

(** X3. The normalizer neither loses nor invents samples: the series of the
    mapping hold, together, as many samples as the records hold reading
    objects under keys other than [category]. *)
Theorem samples_conserved (data : list DataPoint) :
  data ≠ [] →
  ∃ cd, chartData (Some data) = Returns (Some cd)
        ∧ total_samples cd = length (data ≫= reading_entries).
Proof.
  intros Hne. destruct (chartData_keys data Hne) as (cd & Hcd & _ & Htotal).
  exists cd. split; [done|]. by rewrite Htotal, length_metric_names.
Qed.

(** X4. The chart container is rendered and an option is built exactly when
    some record holds a reading object under a key other than [category].
    Otherwise, also when the input is not empty, the placeholder is
    rendered, no option is built and the chart instance is left as it
    was. *)
Theorem chart_shown_iff_reading (ref : option ECharts) (data : list DataPoint)
    (height : option Z) :
  ∃ ref1 v o,
    LineChart ref (Some data) height = Returns (ref1, v, o)
    ∧ ((∃ item name r, item ∈ data ∧ (name, PReading r) ∈ item
                       ∧ name ≠ "category")
       → v = ChartContainer (default 400%Z height)
         ∧ ∃ opt, o = Some opt ∧ ref1 = Some {| current_option := Some opt |})
    ∧ (¬ (∃ item name r, item ∈ data ∧ (name, PReading r) ∈ item
                         ∧ name ≠ "category")
       → v = NoDataPlaceholder (default 400%Z height) ∧ o = None ∧ ref1 = ref).
Proof.
  assert (∀ cd, chartData (Some data) = Returns (Some cd) →
            cd = [] ↔ ¬ ∃ item name r, item ∈ data ∧ (name, PReading r) ∈ item
                                       ∧ name ≠ "category") as Hempty.
  { intros cd Hcd. destruct data as [|item data]; [done|].
    destruct (chartData_keys (item :: data)) as (cd' & Hcd' & Hkeys & _); [done|].
    rewrite Hcd in Hcd'. simplify_eq. split.
    - intros -> (item' & name & r & Hitem & Hr & Hcat).
      assert (name ∈ metric_names (item :: data)) as Hin
        by (apply elem_of_metric_names; eauto).
      apply elem_of_first_occurrences in Hin. rewrite <-Hkeys in Hin.
      by apply elem_of_nil in Hin.
    - intros Hnone. destruct cd' as [|[name md] cd']; [done|]. exfalso.
      assert (name ∈ metric_names (item :: data)) as Hin.
      { apply elem_of_first_occurrences. rewrite <-Hkeys. left. }
      apply elem_of_metric_names in Hin as (Hcat & item' & r & Hitem & Hr).
      apply Hnone. eauto 6. }
  destruct (LineChart_cases ref (Some data) height)
    as (r & Hr & [[Hnil ->]|(m & opt & -> & Hm & Hopt & ->)]).
  - do 3 eexists. split; [done|]. split; [|done].
    intros Hsome. exfalso. destruct r as [m|].
    + subst m. by apply (Hempty [] Hr).
    + destruct data as [|item data];
        [by destruct Hsome as (? & ? & ? & ?%elem_of_nil & _)|].
      destruct (chartData_keys (item :: data)) as (cd' & Hcd' & _); [done|].
      rewrite Hr in Hcd'. done.
  - do 3 eexists. split; [done|]. split; [by eauto|].
    intros Hnone. exfalso. apply Hm. by apply (Hempty m Hr).
Qed.

(** X5. The series of a metric is the only arrangement of its readings
    that is sorted by timestamp and keeps the readings of every timestamp
    in their order of arrival; the result of the normalizer does not depend
    on how the engine sorts. *)
Theorem series_is_the_stable_sort (data : list DataPoint) name
    (l' : list Sample) :
  data ≠ [] →
  readings_of name data ≠ [] →
  StronglySorted (λ a b, (timestamp a ≤ timestamp b)%Z) l' →
  (∀ t, samples_at t l' = samples_at t (readings_of name data)) →
  ∃ cd, chartData (Some data) = Returns (Some cd)
        ∧ JsMap.get name cd = Some l'.
Proof.
  intros Hne Hname Hsorted Hstable.
  destruct (chartData_spec data Hne) as (cd & Hcd & _ & Hget).
  exists cd. split; [done|].
  rewrite Hget, pushed_None, decide_False by done. simpl. f_equal.
  symmetry. by apply sort_by_timestamp_canonical.
Qed.

(** X6. Normalizing two batches of records one after the other in one
    input gives, for each metric, the stable merge of what each batch gives
    alone, and lists the metrics of the first batch before the metrics that
    only the second batch has. *)
Theorem normalizer_append (data1 data2 : list DataPoint) :
  data1 ≠ [] →
  data2 ≠ [] →
  ∃ cd1 cd2 cd,
    chartData (Some data1) = Returns (Some cd1)
    ∧ chartData (Some data2) = Returns (Some cd2)
    ∧ chartData (Some (data1 ++ data2)) = Returns (Some cd)
    ∧ JsMap.keys cd
      = JsMap.keys cd1 ++ filter (λ name, name ∉ JsMap.keys cd1) (JsMap.keys cd2)
    ∧ ∀ name,
        default [] (JsMap.get name cd)
        = JsArray.sort by_timestamp
            (default [] (JsMap.get name cd1) ++ default [] (JsMap.get name cd2)).
Proof.
  intros Hne1 Hne2.
  assert (∀ data cd name,
    data ≠ [] → chartData (Some data) = Returns (Some cd) →
    default [] (JsMap.get name cd) = JsArray.sort by_timestamp (readings_of name data))
    as Hseries.
  { intros data cd name Hne Hcd.
    destruct (chartData_spec data Hne) as (cd' & Hcd' & _ & Hget).
    rewrite Hcd in Hcd'. simplify_eq. rewrite Hget, pushed_None.
    by case_decide as Hnil; [rewrite Hnil|]. }
  assert (data1 ++ data2 ≠ []) as Hne by (by destruct data1).
  destruct (chartData_keys data1 Hne1) as (cd1 & Hcd1 & Hkeys1 & _).
  destruct (chartData_keys data2 Hne2) as (cd2 & Hcd2 & Hkeys2 & _).
  destruct (chartData_keys (data1 ++ data2) Hne) as (cd & Hcd & Hkeys & _).
  exists cd1, cd2, cd. split_and!; [done..| |].
  - rewrite Hkeys, Hkeys1, Hkeys2. unfold metric_names.
    rewrite bind_app, first_occurrences_app. f_equal.
    apply list_filter_iff. intros x. by rewrite elem_of_first_occurrences.
  - intros name.
    rewrite (Hseries _ _ name Hne Hcd), (Hseries _ _ name Hne1 Hcd1),
      (Hseries _ _ name Hne2 Hcd2), sort_sort_app.
    unfold readings_of. by rewrite bind_app.
Qed.
End normalizer_input.

(** * Further properties of the builder *)

Section builder_more.
Context `{Platform}.
Implicit Types (cd : list (string * list Sample)) (md : list Sample).

Lemma aligned_data_last (T : list Z) md :
  aligned_data T md = (λ t, value <$> last (samples_at t md)) <$> T.
Proof.
  unfold aligned_data. apply list_fmap_ext. intros i t _.
  rewrite get_dataMap. by destruct (last _).
Qed.

Lemma samples_at_nonempty t md : samples_at t md ≠ [] ↔ t ∈ timestamp <$> md.
Proof.
  rewrite list_elem_of_fmap. split.
  - intros Hne. destruct (samples_at t md) as [|s l] eqn:Hs; [done|].
    assert (s ∈ samples_at t md) as Hin by (rewrite Hs; left).
    apply list_elem_of_filter in Hin as [? ?]. eauto.
  - intros (s & -> & Hs) Hnil.
    assert (s ∈ samples_at (timestamp s) md) as Hin
      by (by apply list_elem_of_filter).
    rewrite Hnil in Hin. by apply elem_of_nil in Hin.
Qed.

Lemma timestamps_in_timeline cd name md t :
  (name, md) ∈ cd → t ∈ timestamp <$> md → t ∈ sortedTimestamps cd.
Proof.
  intros Hin (s & -> & Hs)%list_elem_of_fmap.
  apply elem_of_sortedTimestamps, elem_of_every_timestamp.
  by exists name, md, s.
Qed.

Lemma samples_at_single md i dp :
  NoDup (timestamp <$> md) → md !! i = Some dp →
  samples_at (timestamp dp) md = [dp].
Proof.
  unfold samples_at. revert i.
  induction md as [|x l IH]; intros i Hnd Hi; [done|].
  rewrite fmap_cons in Hnd. apply NoDup_cons in Hnd as [Hx Hnd].
  destruct i as [|i]; simpl in Hi.
  - simplify_eq. rewrite filter_cons_True by done. f_equal.
    destruct (filter _ l) as [|y l'] eqn:Hf; [done|]. exfalso.
    assert (y ∈ filter (λ s, timestamp s = timestamp dp) l) as Hy
      by (rewrite Hf; left).
    apply list_elem_of_filter in Hy as [Heq Hy]. apply Hx.
    apply list_elem_of_fmap. eauto.
  - rewrite filter_cons_False; [by eapply IH|].
    intros Heq. apply Hx. rewrite Heq.
    apply list_elem_of_fmap. exists dp. split; [done|].
    by eapply list_elem_of_lookup_2.
Qed.

(** X7. In the built option the series come in the order of the legend,
    one per metric, and the data array of every series is as long as the
    array of labels of the category axis. *)
Theorem option_arrays_consistent cd :
  ∃ opt,
    build_option cd = Returns opt
    ∧ series_name <$> option_series opt = legend_data opt
    ∧ length (option_series opt) = length cd
    ∧ length (xAxis_data opt) = length (sortedTimestamps cd)
    ∧ Forall (λ s, length (series_data s) = length (xAxis_data opt))
             (option_series opt).
Proof.
  eexists. split; [apply build_option_spec|].
  cbn [option_series legend_data xAxis_data]. split_and!.
  - rewrite <-list_fmap_compose. apply list_fmap_id.
  - unfold JsMap.keys. by rewrite !length_fmap.
  - by rewrite length_fmap.
  - apply Forall_fmap, Forall_forall. intros name _. simpl.
    by rewrite length_aligned_data, length_fmap.
Qed.

(** X8. In the option built from the normalizer's result no position of the
    timeline is a gap in every series, and no series is a gap at every
    position. *)
Theorem no_row_or_column_of_gaps (data : list DataPoint) :
  data ≠ [] →
  ∃ cd opt,
    chartData (Some data) = Returns (Some cd)
    ∧ build_option cd = Returns opt
    ∧ (∀ i, i < length (sortedTimestamps cd) →
         ∃ s v, s ∈ option_series opt ∧ series_data s !! i = Some (Some v))
    ∧ (∀ s, s ∈ option_series opt →
         ∃ i v, series_data s !! i = Some (Some v)).
Proof.
  intros Hne. destruct (chartData_spec data Hne) as (cd & Hcd & Hnd & Hget).
  exists cd. eexists. split_and!; [done|apply build_option_spec|..];
    cbn [option_series].
  - intros i [t Hi]%lookup_lt_is_Some.
    assert (t ∈ sortedTimestamps cd) as Ht by (by eapply list_elem_of_lookup_2).
    apply elem_of_sortedTimestamps, elem_of_every_timestamp in Ht
      as (name & md & dp & Hin & Hdp & Hts).
    pose proof (get_NoDup _ _ _ Hnd Hin) as Hmd.
    destruct (last (samples_at t md)) as [l|] eqn:Hlast.
    + exists (make_series (sortedTimestamps cd) name md), (value l). split.
      * apply list_elem_of_fmap. exists name. rewrite Hmd. split; [done|].
        apply get_is_Some. eauto.
      * cbn [series_data make_series].
        by rewrite (lookup_aligned_data _ _ _ _ Hi), Hlast.
    + apply last_None in Hlast. exfalso.
      apply (proj2 (samples_at_nonempty t md)); [|done].
      apply list_elem_of_fmap. eauto.
  - intros s (name & -> & [md Hmd]%get_is_Some)%list_elem_of_fmap.
    rewrite Hmd. cbn [default series_data make_series].
    pose proof (chartData_series data cd name md Hcd Hmd) as [Hsort Hnil].
    assert (md ≠ []) as Hmdne.
    { intros ->. apply Hnil, nil_length_inv.
      by rewrite <-(sort_length by_timestamp), <-Hsort. }
    destruct md as [|dp md']; [done|].
    assert (timestamp dp ∈ sortedTimestamps cd) as [i Hi]%list_elem_of_lookup_1.
    { eapply timestamps_in_timeline; [by apply get_Some_elem_of|].
      rewrite fmap_cons. left. }
    destruct (last (samples_at (timestamp dp) (dp :: md'))) as [l|] eqn:Hlast.
    { exists i, (value l). rewrite (lookup_aligned_data _ _ _ _ Hi).
      unfold id. by rewrite Hlast. }
    apply last_None in Hlast. unfold samples_at in Hlast.
    by rewrite filter_cons_True in Hlast.
Qed.

(** X9. A series draws one point for each distinct timestamp of its
    samples: samples that share a timestamp share a point, so a series with
    repeated timestamps draws fewer points than it has samples. *)
Theorem drawn_points_count cd name md :
  JsMap.get name cd = Some md →
  length (drawn (aligned_data (sortedTimestamps cd) md))
  = length (remove_dups (timestamp <$> md))
  ∧ length (drawn (aligned_data (sortedTimestamps cd) md)) ≤ length md.
Proof.
  intros Hget%get_Some_elem_of.
  assert (length (drawn (aligned_data (sortedTimestamps cd) md))
          = length (remove_dups (timestamp <$> md))) as Hcount.
  { unfold drawn. rewrite aligned_data_last, length_filter_fmap.
    rewrite (list_filter_iff _ (λ t, t ∈ timestamp <$> md)).
    - apply Permutation_length, NoDup_Permutation.
      + apply NoDup_filter, NoDup_sortedTimestamps.
      + apply NoDup_remove_dups.
      + intros t. rewrite list_elem_of_filter, elem_of_remove_dups.
        split; [tauto|]. intros Ht. split; [done|].
        by eapply timestamps_in_timeline.
    - intros t. rewrite <-samples_at_nonempty, fmap_is_Some, last_is_Some.
      done. }
  split; [done|]. rewrite Hcount.
  etrans; [|by rewrite <-(length_fmap timestamp md)].
  apply submseteq_length, NoDup_submseteq; [apply NoDup_remove_dups|].
  intros t. by rewrite elem_of_remove_dups.
Qed.

(** X10. When a series has a sample for every position of the timeline and
    no two samples with one timestamp, its timestamps are the timeline, its
    data array has no gap and the colour callback gives every position the
    colour of the status of the sample drawn there. *)
Theorem color_right_when_covering cd name md :
  JsMap.get name cd = Some md →
  StronglySorted (λ a b, (timestamp a ≤ timestamp b)%Z) md →
  NoDup (timestamp <$> md) →
  (∀ t, t ∈ sortedTimestamps cd → t ∈ timestamp <$> md) →
  timestamp <$> md = sortedTimestamps cd
  ∧ ∀ i dp, md !! i = Some dp →
      aligned_data (sortedTimestamps cd) md !! i = Some (Some (value dp))
      ∧ color md i = status_color (status dp).
Proof.
  intros Hget%get_Some_elem_of Hsorted Hnd Hcover.
  assert (timestamp <$> md = sortedTimestamps cd) as Heq.
  { apply (StronglySorted_unique_strong Z.lt).
    - intros; lia.
    - apply StronglySorted_lt; [|done].
      by apply (StronglySorted_fmap timestamp
                  (λ a b, (timestamp a ≤ timestamp b)%Z) Z.le).
    - apply sortedTimestamps_lt.
    - apply NoDup_Permutation; [done|apply NoDup_sortedTimestamps|].
      intros t. split; [by eapply timestamps_in_timeline|apply Hcover]. }
  split; [done|]. intros i dp Hi.
  assert (sortedTimestamps cd !! i = Some (timestamp dp)) as HT
    by (by rewrite <-Heq, list_lookup_fmap, Hi).
  split.
  - rewrite (lookup_aligned_data _ _ _ _ HT).
    by rewrite (samples_at_single md i dp).
  - by rewrite color_lookup, Hi.
Qed.
End builder_more.

(** * Further properties of the colour callback and of the formatter *)

Lemma table_not_inherited :
  ("GOOD" ∉ object_prototype_members)
  ∧ ("WARNING" ∉ object_prototype_members)
  ∧ ("ERROR" ∉ object_prototype_members).
Proof. split_and!; apply (bool_decide_unpack _); by vm_compute. Qed.

(** X11. The colour callback answers the default colour for an index past
    the end of the series, never a colour string outside the table and the
    default, and something that is not a colour string exactly when the
    status of the sample at the index is the name of a member every object
    inherits. *)
Theorem color_callback_values (metricData : list Sample) (i : nat) :
  (length metricData ≤ i → color metricData i = Color "#1890ff")
  ∧ (∀ c, color metricData i = Color c →
          c ∈ ["#52c41a"; "#faad14"; "#f5222d"; "#1890ff"])
  ∧ (∀ member, color metricData i = Inherited member
               ↔ ∃ dataPoint, metricData !! i = Some dataPoint
                              ∧ status dataPoint = member
                              ∧ member ∈ object_prototype_members).
Proof.
  unfold color. split_and!.
  - intros Hi. by rewrite lookup_ge_None_2.
  - intros c. destruct (metricData !! i) as [dp|];
      [|intros [= <-]; repeat constructor].
    unfold statusColors. repeat case_decide; intros [= <-]; repeat constructor.
  - intros member. destruct (metricData !! i) as [dp|]; [|split; [done|]].
    + unfold statusColors. split.
      * repeat case_decide; intros [= <-]. eauto.
      * intros (dp' & [= <-] & <- & Hin).
        destruct table_not_inherited as (Hgood & Hwarning & Herror).
        repeat case_decide; try done; exfalso; congruence.
    + by intros (? & ? & _).
Qed.

Section formatter_more.
Context `{Platform}.
Implicit Types (cd : list (string * list Sample)).

Lemma tooltip_step_unknown cd ts result (p : Param) :
  seriesName p ∉ JsMap.keys cd →
  tooltip_step cd ts result p = Throws "TypeError".
Proof. intros Hp%get_None. unfold tooltip_step. by rewrite Hp. Qed.

Lemma forEach_tooltip_step_throws cd ts (ps : list Param) result :
  ¬ Forall (λ p, seriesName p ∈ JsMap.keys cd) ps →
  forEachM (tooltip_step cd ts) ps result = Throws "TypeError".
Proof.
  revert result. induction ps as [|p ps IH]; intros result Hnot.
  { destruct Hnot. constructor. }
  cbn [forEachM]. destruct (decide (seriesName p ∈ JsMap.keys cd)) as [Hp|Hp].
  - destruct (tooltip_step_total cd ts result p Hp) as [text ->]. cbn.
    apply IH. intros Hps. apply Hnot. by constructor.
  - by rewrite tooltip_step_unknown.
Qed.

(** X12. The formatter answers the empty string when its argument is not an
    array or is an empty array.  On a non-empty array it returns a text
    when every parameter names a series of the chart, and throws a
    [TypeError] as soon as one does not. *)
Theorem formatter_throws_on_unknown_series cd (T : list Z) (p0 : Param)
    (ps : list Param) :
  formatter cd T (SingleParam p0) = Returns ""
  ∧ formatter cd T (ParamArray []) = Returns ""
  ∧ (Forall (λ p, seriesName p ∈ JsMap.keys cd) (p0 :: ps) →
     ∃ text, formatter cd T (ParamArray (p0 :: ps)) = Returns text)
  ∧ (¬ Forall (λ p, seriesName p ∈ JsMap.keys cd) (p0 :: ps) →
     formatter cd T (ParamArray (p0 :: ps)) = Throws "TypeError").
Proof.
  split_and!; [done..| |].
  - intros Hps. by apply (formatter_total cd T (ParamArray (p0 :: ps))).
  - intros Hnot. unfold formatter. by apply forEach_tooltip_step_throws.
Qed.

(** X13. When the index of the first parameter is past the end of the
    timeline, the formatter returns the text of an invalid date and no line
    for any series. *)
Theorem formatter_outside_timeline cd (T : list Z) (p0 : Param)
    (ps : list Param) :
  length T ≤ dataIndex p0 →
  Forall (λ p, seriesName p ∈ JsMap.keys cd) (p0 :: ps) →
  formatter cd T (ParamArray (p0 :: ps))
  = Returns (toLocaleString None FullDateTime +:+ "<br/>").
Proof.
  intros Hi Hps. unfold formatter. rewrite (lookup_ge_None_2 T) by done.
  by apply forEach_tooltip_step_None.
Qed.

(** X14. The formatter takes the position on the timeline from its first
    parameter alone: of the other parameters it reads the series name and
    the marker, not the index. *)
Theorem formatter_reads_first_index cd (T : list Z) (p0 p0' : Param)
    (ps ps' : list Param) :
  dataIndex p0 = dataIndex p0' →
  Forall2 (λ p p', seriesName p = seriesName p' ∧ marker p = marker p')
          (p0 :: ps) (p0' :: ps') →
  formatter cd T (ParamArray (p0 :: ps)) = formatter cd T (ParamArray (p0' :: ps')).
Proof.
  intros Hi Hps. unfold formatter. rewrite Hi.
  generalize (toLocaleString (T !! dataIndex p0') FullDateTime +:+ "<br/>").
  generalize (T !! dataIndex p0'). intros ts.
  induction Hps as [|p p' l l' [Hname Hmark] _ IH]; intros result; [done|].
  cbn [forEachM].
  assert (tooltip_step cd ts result p = tooltip_step cd ts result p') as ->.
  { unfold tooltip_step, tooltip_line. by rewrite Hname, Hmark. }
  destruct (tooltip_step cd ts result p'); cbn; [apply IH|done].
Qed.
End formatter_more.

(** * The chart instance and the resize listener *)

Section lifecycle_facts.
Context `{Platform}.

Lemma filter_fresh (h : nat) (l : list nat) :
  h ∉ l → filter (λ h', h' ≠ h) l = l.
Proof. intros Hh. apply filter_all. by intros x Hx ->. Qed.

Lemma cleanup_pending (others : list nat) (cleanup : option nat) (host : Host) :
  resize_listeners host = others ++ option_list cleanup →
  (∀ h, cleanup = Some h → h ∉ others) →
  resize_listeners (run_cleanup cleanup host) = others.
Proof.
  intros Hl Hfresh. destruct cleanup as [h|]; simpl in *.
  - rewrite Hl, filter_app, filter_fresh by auto.
    rewrite filter_cons_False, filter_nil, app_nil_r; [done|]. by intros ?.
  - by rewrite Hl, app_nil_r.
Qed.

Lemma host_ok_cleanup (cleanup : option nat) (host : Host) :
  host_ok host → host_ok (run_cleanup cleanup host).
Proof.
  unfold host_ok. destruct cleanup as [h|]; simpl; [|done].
  intros Hok. apply Forall_forall. intros x [_ Hx]%list_elem_of_filter.
  by eapply Forall_forall in Hok.
Qed.

(** The effect, by cases; it never throws. *)
Lemma run_effect_cases (host : Host) (c : bool) (ref : option ECharts)
    (cd : option (list (string * list Sample))) :
  run_effect host c ref cd = Returns (host, ref, None, None)
  ∧ effect c ref cd = Returns (ref, None)
  ∧ (c = false ∨ cd = None)
  ∨ ∃ m opt host',
      c = true ∧ cd = Some m
      ∧ build_option m = Returns opt
      ∧ run_effect host c ref cd
        = Returns (host', Some {| current_option := Some opt |}, Some opt,
                   Some (next_listener host))
      ∧ effect c ref cd
        = Returns (Some {| current_option := Some opt |}, Some opt)
      ∧ resize_listeners host'
        = (if decide (next_listener host ∈ resize_listeners host)
           then resize_listeners host
           else resize_listeners host ++ [next_listener host])
      ∧ next_listener host' = S (next_listener host)
      ∧ initialized host'
        = initialized host + (if ref is Some _ then 0 else 1)
      ∧ disposed host' = disposed host.
Proof.
  destruct c, cd as [m|]; [right|left; split_and!; auto..].
  exists m. eexists.
  unfold run_effect, effect. rewrite build_option_spec. cbn [mbind outcome_bind].
  destruct ref; eexists; split_and!; try reflexivity; simpl; lia.
Qed.

Lemma fresh_not_registered (host : Host) :
  host_ok host → next_listener host ∉ resize_listeners host.
Proof.
  intros Hok Hin. eapply Forall_forall in Hok; [|done]. lia.
Qed.

Lemma update_inv (others : list nat) (inits disposals : nat) (st : Mounted)
    (data : option (list DataPoint)) (height : option Z) :
  lifecycle_inv others inits disposals st →
  ∃ st' v o, update st data height = Returns (st', v, o)
             ∧ LineChart (mounted_instance st) data height
               = Returns (mounted_instance st', v, o)
             ∧ lifecycle_inv others inits disposals st'.
Proof.
  intros (Hl & Hfresh & Hok & Hinit & Hdisp).
  destruct (chartData_total data) as [cd Hcd].
  unfold update, LineChart. rewrite Hcd. cbn [mbind outcome_bind].
  pose proof (cleanup_pending _ _ _ Hl Hfresh) as Hl1.
  pose proof (host_ok_cleanup (mounted_cleanup st) _ Hok) as Hok1.
  assert (initialized (run_cleanup (mounted_cleanup st) (mounted_host st))
          = initialized (mounted_host st)
          ∧ disposed (run_cleanup (mounted_cleanup st) (mounted_host st))
            = disposed (mounted_host st)) as [Hi1 Hd1]
    by (by destruct (mounted_cleanup st)).
  destruct (run_effect_cases
              (run_cleanup (mounted_cleanup st) (mounted_host st))
              (chartRef_current (view cd (default 400%Z height)))
              (mounted_instance st) cd)
    as [(-> & -> & _)
       |(m & opt & host' & _ & _ & _ & -> & -> & Hl' & Hn' & Hi' & Hd')].
  - do 3 eexists. split_and!; [done..|]. cbn.
    split_and!; cbn; [by rewrite Hl1, app_nil_r|done|done|congruence|congruence].
  - do 3 eexists. split_and!; [done..|]. cbn.
    rewrite decide_False in Hl' by (by apply fresh_not_registered).
    split_and!; cbn.
    + by rewrite Hl', Hl1.
    + intros h [= <-]. rewrite <-Hl1. by apply fresh_not_registered.
    + unfold host_ok. rewrite Hl', Hn'. apply Forall_app. split.
      * eapply Forall_impl; [exact Hok1|]. simpl. lia.
      * repeat constructor.
    + rewrite Hi', Hi1, Hinit. destruct (mounted_instance st); lia.
    + congruence.
Qed.

Lemma updates_inv (others : list nat) (inits disposals : nat) (st : Mounted)
    (inputs : list (option (list DataPoint))) (height : option Z) :
  lifecycle_inv others inits disposals st →
  ∃ st', updates st inputs height = Returns st'
         ∧ lifecycle_inv others inits disposals st'.
Proof.
  revert st. induction inputs as [|data inputs IH]; intros st Hinv.
  - by exists st.
  - destruct (update_inv _ _ _ st data height Hinv) as (st1 & v & o & Hup & _ & Hinv1).
    cbn [updates]. rewrite Hup. cbn. by apply IH.
Qed.

(** X15. The cleanup the effect returns removes exactly the listener the
    effect added, so the listeners of the window are afterwards what they
    were before; when the effect returns early, it adds no listener and
    returns no cleanup.  With the host left aside the effect is the one of
    the render cycle. *)
Theorem effect_cleanup_round_trip (host : Host) (c : bool)
    (ref : option ECharts) (cd : option (list (string * list Sample))) :
  host_ok host →
  ∃ host' ref' o cleanup,
    run_effect host c ref cd = Returns (host', ref', o, cleanup)
    ∧ effect c ref cd = Returns (ref', o)
    ∧ (is_Some cleanup ↔ is_Some o)
    ∧ (cleanup = None → host' = host)
    ∧ (∀ h, cleanup = Some h →
            resize_listeners host' = resize_listeners host ++ [h])
    ∧ resize_listeners (run_cleanup cleanup host') = resize_listeners host.
Proof.
  intros Hok.
  destruct (run_effect_cases host c ref cd)
    as [(-> & -> & _)
       |(m & opt & host' & _ & _ & _ & -> & -> & Hl' & _)].
  - do 4 eexists. split_and!; [done..| |done| |done].
    + split; by intros [? [=]].
    + by intros h [=].
  - rewrite decide_False in Hl' by (by apply fresh_not_registered).
    do 4 eexists. split_and!; [done..| |done| |].
    + split; by eauto.
    + by intros h [= <-].
    + simpl. rewrite Hl', filter_app, filter_fresh
        by (by apply fresh_not_registered).
      rewrite filter_cons_False, filter_nil, app_nil_r; [done|]. by intros ?.
Qed.

(** X16. Through any sequence of renders the component keeps at most one
    resize listener registered, beside the listeners that were there when it
    was mounted, and initializes a chart at most once.  Unmounting then
    leaves the listeners as they were at mounting, clears the reference to
    the chart, and disposes of a chart exactly when one was initialized. *)
Theorem listener_never_accumulates (host : Host)
    (inputs : list (option (list DataPoint))) (height : option Z) :
  host_ok host →
  ∃ st,
    updates (mount host) inputs height = Returns st
    ∧ resize_listeners (mounted_host st)
      = resize_listeners host ++ option_list (mounted_cleanup st)
    ∧ initialized (mounted_host st)
      = initialized host + (if mounted_instance st is Some _ then 1 else 0)
    ∧ disposed (mounted_host st) = disposed host
    ∧ resize_listeners (unmount st).1 = resize_listeners host
    ∧ (unmount st).2 = None
    ∧ initialized (unmount st).1 - initialized host
      = disposed (unmount st).1 - disposed host.
Proof.
  intros Hok.
  destruct (updates_inv (resize_listeners host) (initialized host)
              (disposed host) (mount host) inputs height)
    as (st & Hst & Hl & Hfresh & Hok' & Hinit & Hdisp).
  { split_and!; simpl; [by rewrite app_nil_r|done|done|lia|done]. }
  exists st. split_and!; [done..| | |].
  - unfold unmount, unmount_cleanup.
    pose proof (cleanup_pending _ _ _ Hl Hfresh) as Hl1.
    by destruct (mounted_instance st).
  - unfold unmount, unmount_cleanup. by destruct (mounted_instance st).
  - unfold unmount, unmount_cleanup.
    destruct (mounted_instance st), (mounted_cleanup st); simpl in *; lia.
Qed.
End lifecycle_facts.

(** * Where the colour callback and the tooltip agree with the data array *)

Lemma sorted_lt_lookup (l : list Z) (i j : nat) (x y : Z) :
  StronglySorted Z.lt l → l !! i = Some x → l !! j = Some y → i < j → (x < y)%Z.
Proof.
  intros Hl. revert i j. induction Hl as [|a l Hl IH Ha]; intros i j Hi Hj Hij.
  { done. }
  destruct j as [|j]; [lia|]. simpl in Hj. destruct i as [|i]; simpl in Hi.
  - simplify_eq. rewrite Forall_forall in Ha. apply Ha.
    by eapply list_elem_of_lookup_2.
  - apply (IH i j); [done..|lia].
Qed.

Lemma NoDup_take_1 {A : Type} (l : list A) (n : nat) : NoDup l → NoDup (take n l).
Proof.
  intros Hl. rewrite <-(take_drop n l) in Hl. by apply NoDup_app in Hl as [? _].
Qed.

Section agreement.
Context `{Platform}.
Implicit Types (cd : list (string * list Sample)) (md : list Sample).

(** X17. In a sorted series without repeated timestamps the sample number
    [k] is drawn at a position [i] of the timeline that is not before [k].
    The colour callback, asked for position [i], reads the sample number
    [i]: it gives the colour of the status of the sample drawn there when
    [i] is [k], and as soon as the series misses a position of the timeline
    before [i] it gives instead the default colour, the series having no
    sample number [i], or the colour of the status of a later sample. *)
Theorem color_index_lags cd name md (k i : nat) (dp : Sample) :
  JsMap.get name cd = Some md →
  StronglySorted (λ a b, (timestamp a ≤ timestamp b)%Z) md →
  NoDup (timestamp <$> md) →
  md !! k = Some dp →
  sortedTimestamps cd !! i = Some (timestamp dp) →
  k ≤ i
  ∧ aligned_data (sortedTimestamps cd) md !! i = Some (Some (value dp))
  ∧ (i = k → color md i = status_color (status dp))
  ∧ ((∃ j t, j < i ∧ sortedTimestamps cd !! j = Some t ∧ t ∉ timestamp <$> md) →
     k < i
     ∧ (md !! i = None ∧ color md i = Color "#1890ff"
        ∨ ∃ later, md !! i = Some later
                   ∧ (timestamp dp < timestamp later)%Z
                   ∧ color md i = status_color (status later))).
Proof.
  intros Hget%get_Some_elem_of Hsorted Hnd Hk Hi.
  assert (StronglySorted Z.lt (timestamp <$> md)) as Hlt.
  { apply StronglySorted_lt; [|done].
    by apply (StronglySorted_fmap timestamp
                (λ a b, (timestamp a ≤ timestamp b)%Z) Z.le). }
  assert (length (take k (timestamp <$> md)) = k) as Hlen.
  { apply length_take_le. rewrite length_fmap.
    apply Nat.lt_le_incl. by eapply lookup_lt_Some. }
  assert (length (take i (sortedTimestamps cd)) = i) as Hlen'.
  { apply length_take_le, Nat.lt_le_incl. by eapply lookup_lt_Some. }
  assert (take k (timestamp <$> md) ⊆+ take i (sortedTimestamps cd)) as Hsub.
  { apply NoDup_submseteq; [by apply NoDup_take_1|].
    intros t (j & Hj & Hjk)%elem_of_take.
    assert (t < timestamp dp)%Z as Ht.
    { apply (sorted_lt_lookup (timestamp <$> md) j k); [done..| |done].
      by rewrite list_lookup_fmap, Hk. }
    assert (t ∈ sortedTimestamps cd) as [j' Hj']%list_elem_of_lookup_1.
    { eapply timestamps_in_timeline; [done|]. by eapply list_elem_of_lookup_2. }
    apply elem_of_take. exists j'. split; [done|].
    destruct (decide (j' < i)) as [|Hge]; [done|]. exfalso.
    destruct (decide (j' = i)) as [->|Hne]; [rewrite Hi in Hj'; simplify_eq; lia|].
    assert (timestamp dp < t)%Z; [|lia].
    apply (sorted_lt_lookup (sortedTimestamps cd) i j');
      [apply sortedTimestamps_lt|done..|lia]. }
  assert (k ≤ i) as Hki.
  { apply submseteq_length in Hsub. by rewrite Hlen, Hlen' in Hsub. }
  split_and!; [done| | |].
  - rewrite (lookup_aligned_data _ _ _ _ Hi).
    by rewrite (samples_at_single md k dp).
  - intros ->. by rewrite color_lookup, Hk.
  - intros (j & t & Hji & Hj & Hmissing).
    assert (k < i) as Hlt_ki.
    { destruct (decide (k = i)) as [->|]; [|lia]. exfalso.
      apply Hmissing.
      assert (t ∈ take i (sortedTimestamps cd)) as Hin
        by (apply elem_of_take; eauto).
      rewrite <-(submseteq_length_Permutation _ _ Hsub) in Hin
        by (rewrite Hlen, Hlen'; lia).
      apply elem_of_take in Hin as (j0 & Hj0 & _).
      by eapply list_elem_of_lookup_2. }
    split; [done|]. rewrite color_lookup.
    destruct (md !! i) as [later|] eqn:Hlater; [right|by left].
    exists later. split_and!; [done| |done].
    apply (sorted_lt_lookup (timestamp <$> md) k i); [done| | |done];
      by rewrite list_lookup_fmap, ?Hk, ?Hlater.
Qed.

(** X18. For a series without repeated timestamps the line of the tooltip
    and the data array show the same sample: at the position of a sample's
    timestamp the data array holds the value of that sample and the line of
    its metric is made from that sample. *)
Theorem tooltip_agrees_without_repeats cd name md (k i : nat) (dp : Sample)
    (mark : string → string) :
  JsMap.get name cd = Some md →
  NoDup (timestamp <$> md) →
  md !! k = Some dp →
  sortedTimestamps cd !! i = Some (timestamp dp) →
  aligned_data (sortedTimestamps cd) md !! i = Some (Some (value dp))
  ∧ formatter cd (sortedTimestamps cd) (ParamArray (axis_params mark i [name]))
    = Returns ((toLocaleString (Some (timestamp dp)) FullDateTime +:+ "<br/>")
               +:+ tooltip_line {| seriesName := name; marker := mark name;
                                   dataIndex := i |} dp).
Proof.
  intros Hget Hnd Hk Hi. split.
  - rewrite (lookup_aligned_data _ _ _ _ Hi).
    by rewrite (samples_at_single md k dp).
  - rewrite (formatter_axis cd _ mark i (timestamp dp)) by
      (try done; intros ? ->%list_elem_of_singleton; apply get_is_Some; eauto).
    cbn. rewrite Hget. cbn. by rewrite (samples_at_single md k dp).
Qed.
End agreement.

(** * The further properties at concrete inputs *)

(** X1: other categories, a number and a [null] change nothing. *)
Lemma normalizer_reads_only_readings_witness :
  chartData (H:=Reference.platform) (Some Reference.repeated)
  = chartData (H:=Reference.platform) (Some Reference.repeated_noise).
Proof.
  apply (normalizer_reads_only_readings (H:=Reference.platform)). by vm_compute.
Defined.

(** X2: [cpu] is met before [mem]. *)
Lemma legend_in_first_seen_order_witness :
  ∃ cd opt,
    chartData (H:=Reference.platform) (Some Reference.repeated) = Returns (Some cd)
    ∧ build_option (H:=Reference.platform) cd = Returns opt
    ∧ legend_data opt = ["cpu"; "mem"]
    ∧ series_name <$> option_series opt = ["cpu"; "mem"].
Proof.
  destruct (legend_in_first_seen_order (H:=Reference.platform) Reference.repeated)
    as (cd & opt & Hcd & Hopt & _ & Hlegend & Hseries); [done|].
  exists cd, opt. by rewrite Hlegend, Hseries.
Defined.

(** X3: four readings, four samples. *)
Lemma samples_conserved_witness :
  ∃ cd, chartData (H:=Reference.platform) (Some Reference.repeated)
        = Returns (Some cd)
        ∧ total_samples cd = 4.
Proof.
  destruct (samples_conserved (H:=Reference.platform) Reference.repeated)
    as (cd & Hcd & Htotal); [done|].
  exists cd. by rewrite Htotal.
Defined.

(** X4: records that hold numbers only give the placeholder. *)
Lemma chart_shown_iff_reading_witness :
  ∃ ref1 v o,
    LineChart (H:=Reference.platform) None (Some Reference.numbers_only) None
    = Returns (ref1, v, o)
    ∧ v = NoDataPlaceholder 400 ∧ o = None ∧ ref1 = None.
Proof.
  destruct (chart_shown_iff_reading (H:=Reference.platform) None
              Reference.numbers_only None) as (ref1 & v & o & Hrun & _ & Hnone).
  exists ref1, v, o. split; [done|]. apply Hnone.
  intros (item & name & r & Hitem & Hr & _).
  repeat (apply elem_of_cons in Hitem as [->|Hitem];
          [repeat (apply elem_of_cons in Hr as [[=]|Hr]);
           by apply elem_of_nil in Hr|]).
  by apply elem_of_nil in Hitem.
Defined.

(** X5: the sorted arrangement of the three [cpu] readings that keeps the
    two readings at 1000 in their order is the series of [cpu]. *)
Lemma series_is_the_stable_sort_witness :
  ∃ cd, chartData (H:=Reference.platform) (Some Reference.repeated)
        = Returns (Some cd)
        ∧ JsMap.get "cpu" cd
          = Some [ {| timestamp := 500; value := Reference.num 4;
                      status := "WARNING" |};
                   {| timestamp := 1000; value := Reference.num 5;
                      status := "GOOD" |};
                   {| timestamp := 1000; value := Reference.num 6;
                      status := "ERROR" |} ].
Proof.
  apply (series_is_the_stable_sort (H:=Reference.platform)); [done|by vm_compute| |].
  - apply (bool_decide_unpack _). by vm_compute.
  - intros t.
    assert (readings_of (H:=Reference.platform) "cpu" Reference.repeated
            = [ {| timestamp := 1000; value := Reference.num 5; status := "GOOD" |};
                {| timestamp := 1000; value := Reference.num 6; status := "ERROR" |};
                {| timestamp := 500; value := Reference.num 4;
                   status := "WARNING" |} ]) as -> by (by vm_compute).
    unfold samples_at. rewrite !filter_cons, !filter_nil. simpl.
    repeat case_decide; congruence.
Defined.

(** X6: scenario 2 followed by the three records. *)
Lemma normalizer_append_witness :
  ∃ cd,
    chartData (H:=Reference.platform)
      (Some (Reference.scenario2 ++ Reference.repeated)) = Returns (Some cd)
    ∧ JsMap.keys cd = ["cpu"; "mem"]
    ∧ length (default [] (JsMap.get "cpu" cd)) = 5.
Proof.
  destruct (normalizer_append (H:=Reference.platform)
              Reference.scenario2 Reference.repeated)
    as (cd1 & cd2 & cd & Hcd1 & Hcd2 & Hcd & Hkeys & Hseries); [done..|].
  exists cd. split; [done|].
  assert (cd1 = Reference.normalized Reference.scenario2) as ->
    by (unfold Reference.normalized; by rewrite Hcd1).
  assert (cd2 = Reference.normalized Reference.repeated) as ->
    by (unfold Reference.normalized; by rewrite Hcd2).
  rewrite Hkeys, (Hseries "cpu"). by vm_compute.
Defined.

(** X8: the first position of the timeline of the three records has a
    value in some series. *)
Lemma no_row_or_column_of_gaps_witness :
  ∃ cd opt,
    chartData (H:=Reference.platform) (Some Reference.repeated) = Returns (Some cd)
    ∧ build_option (H:=Reference.platform) cd = Returns opt
    ∧ ∃ s v, s ∈ option_series opt ∧ series_data s !! 0 = Some (Some v).
Proof.
  destruct (no_row_or_column_of_gaps (H:=Reference.platform) Reference.repeated)
    as (cd & opt & Hcd & Hopt & Hcolumn & _); [done|].
  exists cd, opt. split_and!; [done..|]. apply Hcolumn.
  assert (cd = Reference.normalized Reference.repeated) as ->
    by (unfold Reference.normalized; by rewrite Hcd).
  assert (length (sortedTimestamps (Reference.normalized Reference.repeated)) = 2)
    as -> by (by vm_compute).
  lia.
Defined.

(** X9: three [cpu] samples, two of them at 1000, draw two points. *)
Lemma drawn_points_count_witness :
  length (drawn (aligned_data
                   (sortedTimestamps (Reference.normalized Reference.repeated))
                   (JsArray.sort by_timestamp
                      (readings_of (H:=Reference.platform) "cpu"
                         Reference.repeated))))
  = 2.
Proof.
  destruct (drawn_points_count (Reference.normalized Reference.repeated) "cpu"
              (JsArray.sort by_timestamp
                 (readings_of (H:=Reference.platform) "cpu" Reference.repeated)))
    as [-> _]; by vm_compute.
Defined.

(** X10: in scenario 2 the series of [cpu] covers the timeline, and its
    second point gets the colour of ERROR. *)
Lemma color_right_when_covering_witness :
  color (default [] (JsMap.get "cpu" (Reference.normalized Reference.scenario2))) 1
  = Color "#f5222d".
Proof.
  destruct (color_right_when_covering (Reference.normalized Reference.scenario2)
              "cpu"
              (default [] (JsMap.get "cpu"
                                     (Reference.normalized Reference.scenario2))))
    as [_ Hcolor].
  - by vm_compute.
  - apply (bool_decide_unpack _). by vm_compute.
  - apply (bool_decide_unpack _). by vm_compute.
  - intros t Ht.
    assert (sortedTimestamps (Reference.normalized Reference.scenario2)
            = [1000%Z; 2000%Z]) as HT by (by vm_compute).
    assert (timestamp <$> default [] (JsMap.get "cpu"
                                        (Reference.normalized Reference.scenario2))
            = [1000%Z; 2000%Z]) as -> by (by vm_compute).
    by rewrite HT in Ht.
  - destruct (Hcolor 1 {| timestamp := 2000; value := Reference.num 20;
                          status := "ERROR" |}) as [_ ->]; by vm_compute.
Defined.

(** X11: an index past the end of a series of one sample. *)
Lemma color_callback_values_witness :
  color [ {| timestamp := 1000; value := Reference.num 1; status := "ERROR" |} ] 5
  = Color "#1890ff".
Proof.
  apply (proj1 (color_callback_values
                  [ {| timestamp := 1000; value := Reference.num 1;
                       status := "ERROR" |} ] 5)).
  simpl. lia.
Defined.

(** X12: a parameter for a series [disk] that the chart does not have. *)
Lemma formatter_throws_on_unknown_series_witness :
  formatter (H:=Reference.platform) (Reference.normalized Reference.scenario2)
    [1000%Z; 2000%Z]
    (ParamArray [ {| seriesName := "cpu"; marker := "*"; dataIndex := 0 |};
                  {| seriesName := "disk"; marker := "*"; dataIndex := 0 |} ])
  = Throws "TypeError".
Proof.
  apply (formatter_throws_on_unknown_series (H:=Reference.platform)).
  apply (bool_decide_unpack _). by vm_compute.
Defined.

(** X13: position 3 of a timeline of one timestamp. *)
Lemma formatter_outside_timeline_witness :
  formatter (H:=Reference.platform) (Reference.normalized Reference.scenario1)
    [1000%Z]
    (ParamArray [ {| seriesName := "cpu"; marker := "*"; dataIndex := 3 |} ])
  = Returns ("Invalid Date" +:+ "<br/>").
Proof.
  apply (formatter_outside_timeline (H:=Reference.platform)).
  - simpl. lia.
  - apply (bool_decide_unpack _). by vm_compute.
Defined.

(** X14: the index of the second parameter is not read. *)
Lemma formatter_reads_first_index_witness :
  formatter (H:=Reference.platform) (Reference.normalized Reference.scenario2)
    [1000%Z; 2000%Z]
    (ParamArray [ {| seriesName := "cpu"; marker := "*"; dataIndex := 0 |};
                  {| seriesName := "mem"; marker := "+"; dataIndex := 0 |} ])
  = formatter (H:=Reference.platform) (Reference.normalized Reference.scenario2)
      [1000%Z; 2000%Z]
      (ParamArray [ {| seriesName := "cpu"; marker := "*"; dataIndex := 0 |};
                    {| seriesName := "mem"; marker := "+"; dataIndex := 1 |} ]).
Proof.
  apply (formatter_reads_first_index (H:=Reference.platform)); [done|].
  repeat constructor.
Defined.

(** X15: the effect on a window that has one listener of another party. *)
Lemma effect_cleanup_round_trip_witness :
  ∃ host' ref' o cleanup,
    run_effect (H:=Reference.platform)
      {| resize_listeners := [7]; next_listener := 8;
         initialized := 0; disposed := 0 |}
      true None (Some (Reference.normalized Reference.scenario1))
    = Returns (host', ref', o, cleanup)
    ∧ resize_listeners host' = [7; 8]
    ∧ resize_listeners (run_cleanup cleanup host') = [7].
Proof.
  destruct (effect_cleanup_round_trip (H:=Reference.platform)
              {| resize_listeners := [7]; next_listener := 8;
                 initialized := 0; disposed := 0 |}
              true None (Some (Reference.normalized Reference.scenario1)))
    as (host' & ref' & o & cleanup & Hrun & _ & _ & _ & Hadded & Hback).
  { repeat constructor. }
  exists host', ref', o, cleanup. split_and!; [done| |done].
  unfold run_effect in Hrun. rewrite build_option_spec in Hrun.
  cbn in Hrun. injection Hrun as <- _ _ <-. by apply Hadded.
Defined.

(** X16: four renders, with and without readings, then unmounting. *)
Lemma listener_never_accumulates_witness :
  ∃ st,
    updates (H:=Reference.platform)
      (mount {| resize_listeners := [7]; next_listener := 8;
                initialized := 0; disposed := 0 |})
      [ Some Reference.scenario2; Some []; Some Reference.repeated; None ] None
    = Returns st
    ∧ resize_listeners (unmount st).1 = [7]
    ∧ (unmount st).2 = None.
Proof.
  destruct (listener_never_accumulates (H:=Reference.platform)
              {| resize_listeners := [7]; next_listener := 8;
                 initialized := 0; disposed := 0 |}
              [ Some Reference.scenario2; Some []; Some Reference.repeated; None ]
              None)
    as (st & Hst & _ & _ & _ & Hlisteners & Href & _).
  { repeat constructor. }
  by exists st.
Defined.

(** X17: [cpu] starts at the second timestamp.  Its sample number 0, with
    the status ERROR, is drawn at position 1, where the callback finds no
    sample and gives the default colour. *)
Lemma color_index_lags_witness :
  aligned_data (sortedTimestamps (Reference.normalized Reference.late_metric))
    [ {| timestamp := 2000; value := Reference.num 2; status := "ERROR" |} ] !! 1
  = Some (Some (Reference.num 2))
  ∧ color [ {| timestamp := 2000; value := Reference.num 2; status := "ERROR" |} ] 1
    = Color "#1890ff"
  ∧ status_color "ERROR" = Color "#f5222d".
Proof.
  destruct (color_index_lags (Reference.normalized Reference.late_metric) "cpu"
              [ {| timestamp := 2000; value := Reference.num 2;
                   status := "ERROR" |} ]
              0 1
              {| timestamp := 2000; value := Reference.num 2; status := "ERROR" |})
    as (_ & Hdata & _ & Hmissed).
  - by vm_compute.
  - repeat constructor.
  - apply (bool_decide_unpack _). by vm_compute.
  - done.
  - by vm_compute.
  - split; [done|]. split; [|done].
    destruct Hmissed as [_ [[_ Hcolor]|(later & Hlater & _)]]; [|done|done].
    exists 0, 1000%Z. split_and!; [lia|by vm_compute|].
    apply (bool_decide_unpack _). by vm_compute.
Defined.

(** X18: [mem] in scenario 2 has one sample, at 1000. *)
Lemma tooltip_agrees_without_repeats_witness :
  formatter (H:=Reference.platform) (Reference.normalized Reference.scenario2)
    (sortedTimestamps (Reference.normalized Reference.scenario2))
    (ParamArray (axis_params (λ _, "*") 0 ["mem"]))
  = Returns "full:1000<br/>* mem: 7 (WARNING)<br/>".
Proof.
  destruct (tooltip_agrees_without_repeats (H:=Reference.platform)
              (Reference.normalized Reference.scenario2) "mem"
              [ {| timestamp := 1000; value := Reference.num 7;
                   status := "WARNING" |} ]
              0 0
              {| timestamp := 1000; value := Reference.num 7;
                 status := "WARNING" |} (λ _, "*"))
    as [_ ->].
  - by vm_compute.
  - apply (bool_decide_unpack _). by vm_compute.
  - done.
  - by vm_compute.
  - by vm_compute.
Defined.

(** C5 on three records: the reading of [cpu] in the first record is kept,
    and the series of [cpu] has the later record's sample at 500 first and
    the two samples at 1000 in their order of arrival. *)
Lemma series_sorted_stable_witness :
  ∃ cd, chartData (H:=Reference.platform) (Some Reference.repeated)
        = Returns (Some cd)
    ∧ JsMap.get "cpu" cd
      = Some [ {| timestamp := 500; value := Reference.num 4;
                  status := "WARNING" |};
               {| timestamp := 1000; value := Reference.num 5; status := "GOOD" |};
               {| timestamp := 1000; value := Reference.num 6;
                  status := "ERROR" |} ].
Proof.
  destruct (series_sorted_stable (H:=Reference.platform) Reference.repeated)
    as (cd & Hcd & Hkept & Hseries); [done|].
  exists cd. split; [done|].
  destruct (Hkept [("category", PNumber 1);
                   ("cpu", Reference.reading "5" 1000 "GOOD");
                   ("mem", Reference.reading "abc" 1000 "GOOD")]
                  "cpu"
                  {| reading_value := "5"; reading_timestamp := 1000;
                     reading_status := "GOOD" |})
    as (md & Hmd & _).
  - left.
  - right. left.
  - done.
  - destruct (Hseries "cpu" md Hmd) as (Hsorted & _ & Hstable).
    rewrite Hmd. f_equal.
    rewrite (sort_by_timestamp_canonical
               (readings_of (H:=Reference.platform) "cpu" Reference.repeated)
               md Hsorted Hstable).
    by vm_compute.
Defined.
